(** * gosample/oidc: token sources and the login callback handler

    A shallow embedding of the Go packages [oidc] (token_src.go) and
    [login] (the redirect callback handler), with the properties of their
    specification stated and proved over the embedding.

    Go pointers to immutable values ([*Token]) are options, Go [error]
    values are optional error records, [url.Values] is a finite map from
    keys to lists of values.  Calls that leave the process (the token
    endpoint, the code exchange, the outcome channel, the debug logger) are
    recorded in an event trace returned next to the result. *)

From stdpp Require Import gmap strings list.
From Stdlib Require Import ZArith NArith Ascii String.
From Stdlib.Strings Require Byte.

Local Open Scope string_scope.
Local Open Scope list_scope.

(** ** Go built-ins and standard-library values *)

(** The [error] interface: [errors.New] and [fmt.Errorf] build a value
    whose [Error()] is the message. *)
Inductive error : Type :=
| errorString (msg : string).

Definition Error (e : error) : string :=
  match e with errorString m => m end.

Definition errors_New (msg : string) : error := errorString msg.

(** The result of a call that yields a value or an error. *)
Inductive result (T : Type) : Type :=
| Ok (v : T)
| Err (e : error).
Arguments Ok {T} v.
Arguments Err {T} e.

(** [url.Values], a [map[string][]string]. *)
Abbreviation Values := (gmap string (list string)).

(** [Values.Get]: the first value of the key, the empty string without one. *)
Definition Values_Get (v : Values) (key : string) : string :=
  match v !! key with
  | Some (x :: _) => x
  | _ => ""
  end.

(** [Values.Set]: the key now holds exactly this value. *)
Definition Values_Set (v : Values) (key value : string) : Values :=
  <[key := [value]]> v.

(** [strings.Join]. *)
Fixpoint strings_Join (elems : list string) (sep : string) : string :=
  match elems with
  | [] => ""
  | [x] => x
  | x :: rest => x +:+ sep +:+ strings_Join rest sep
  end.

(** [strings.Contains], used to state that a message carries a value. *)
Fixpoint strings_Contains (s substr : string) : bool :=
  String.prefix substr s ||
  match s with
  | EmptyString => false
  | String _ s' => strings_Contains s' substr
  end.

Definition newline : string := String (ascii_of_nat 10) EmptyString.

(** [strings.TrimRight]: the string without its trailing characters that
    are in [cutset]. *)
Definition inCutset (a : ascii) (cutset : string) : bool :=
  existsb (Ascii.eqb a) (list_ascii_of_string cutset).

Fixpoint strings_TrimRight (s cutset : string) : string :=
  match s with
  | EmptyString => EmptyString
  | String a s' =>
      match strings_TrimRight s' cutset with
      | EmptyString => if inCutset a cutset then EmptyString else String a EmptyString
      | t => String a t
      end
  end.

(** [base64.URLEncoding]: the URL-safe alphabet of RFC 4648 with [=]
    padding.  [EncodeToString] packs three bytes into a 24-bit value and
    emits its four 6-bit digits; one or two bytes left over give two or
    three digits and the padding. *)
Definition encodeURL : string :=
  "ABCDEFGHIJKLMNOPQRSTUVWXYZabcdefghijklmnopqrstuvwxyz0123456789-_".

Definition base64_digit (v : N) : ascii :=
  nth (N.to_nat v) (list_ascii_of_string encodeURL) "A"%char.

Definition base64_StdPadding : ascii := "="%char.

Fixpoint base64_URLEncoding_EncodeToString (src : list Byte.byte) : string :=
  match src with
  | [] => EmptyString
  | [a] =>
      let val := N.shiftl (Byte.to_N a) 16 in
      String (base64_digit (N.land (N.shiftr val 18) 63))
        (String (base64_digit (N.land (N.shiftr val 12) 63))
           (String base64_StdPadding (String base64_StdPadding EmptyString)))
  | [a; b] =>
      let val := N.lor (N.shiftl (Byte.to_N a) 16) (N.shiftl (Byte.to_N b) 8) in
      String (base64_digit (N.land (N.shiftr val 18) 63))
        (String (base64_digit (N.land (N.shiftr val 12) 63))
           (String (base64_digit (N.land (N.shiftr val 6) 63))
              (String base64_StdPadding EmptyString)))
  | a :: b :: c :: rest =>
      let val := N.lor (N.lor (N.shiftl (Byte.to_N a) 16)
                          (N.shiftl (Byte.to_N b) 8)) (Byte.to_N c) in
      String (base64_digit (N.land (N.shiftr val 18) 63))
        (String (base64_digit (N.land (N.shiftr val 12) 63))
           (String (base64_digit (N.land (N.shiftr val 6) 63))
              (String (base64_digit (N.land val 63))
                 (base64_URLEncoding_EncodeToString rest))))
  end.

(** A call that returns or panics. *)
Inductive panicking (T : Type) : Type :=
| Returned (v : T)
| Panic (e : error).
Arguments Returned {T} v.
Arguments Panic {T} e.

(** ** Package oidc *)
Module oidc.

(** Modelled from the spec: the [Token] struct is declared outside src/;
    the credential has an access token, an optional refresh token, an
    optional identity token and an optional expiry timestamp.  The code
    under src/ reads [RefreshToken] only. *)
Record Token : Type := mkToken {
  AccessToken : string;
  RefreshToken : string;
  IDToken : string;
  AccessTokenExpiry : Z
}.

(** Modelled from the spec: [Config] is declared outside src/; the fields
    are the ones the code under src/ reads. *)
Record Config : Type := mkConfig {
  ClientID : string;
  ClientSecret : string;
  Scopes : list string
}.

Record VerificationConfig : Type := mkVerificationConfig {
  vcClientID : string
}.

(** Modelled from the spec: the constant is declared outside src/; the
    refresh request carries [grant_type=refresh_token]. *)
Definition GrantTypeRefreshToken : string := "refresh_token".

(** [context.Context], as the chain of [WithValue] bindings; a value is
    a nil-able HTTP client handle. *)
Inductive ctxKey : Type :=
| HTTPClientCtxKey
| otherCtxKey (name : string).

#[global] Instance ctxKey_eq_dec : EqDecision ctxKey.
Proof. solve_decision. Defined.

Definition HTTPClient : Type := string.
Definition Context : Type := list (ctxKey * option HTTPClient).

Definition context_Background : Context := [].

Fixpoint Context_Value (ctx : Context) (key : ctxKey) : option HTTPClient :=
  match ctx with
  | [] => None
  | (k, v) :: parent => if decide (k = key) then v else Context_Value parent key
  end.

Definition context_WithValue (parent : Context) (key : ctxKey)
    (val : option HTTPClient) : Context :=
  (key, val) :: parent.

(** What a token source does outside its own fields. *)
Inductive event : Type :=
| EvTokenRequest (ctx : Context) (clientID clientSecret : string) (v : Values)
| EvNewOIDCToken
| EvIsValid (t : Token)
| EvDebugLog (line : string).

Definition is_TokenRequest (e : event) : bool :=
  match e with EvTokenRequest _ _ _ _ => true | _ => false end.

Definition is_NewOIDCToken (e : event) : bool :=
  match e with EvNewOIDCToken => true | _ => false end.

Definition is_IsValid (e : event) : bool :=
  match e with EvIsValid _ => true | _ => false end.

Definition is_DebugLog (e : event) : bool :=
  match e with EvDebugLog _ => true | _ => false end.

(** The value a [TokenSource.OIDCToken] call returns: the Go pair
    of a token pointer and an error, the receiver after the call and the
    trace. *)
Record outcome (S : Type) : Type := mkOutcome {
  ret_token : option Token;
  ret_err : option error;
  ret_self : S;
  ret_trace : list event
}.
Arguments mkOutcome {S} _ _ _ _.
Arguments ret_token {S} _.
Arguments ret_err {S} _.
Arguments ret_self {S} _.
Arguments ret_trace {S} _.

(** [*log.Logger]: a logger made by [log.New] from a writer, a prefix
    and flags; a nil pointer is [None].  A method called on a nil logger
    dereferences it and panics. *)
Inductive Writer : Type :=
| ioutil_Discard
| otherWriter (name : string).

Record Logger : Type := log_New {
  lg_out : Writer;
  lg_prefix : string;
  lg_flag : Z
}.

Definition nilPointerDereference : error :=
  errorString "runtime error: invalid memory address or nil pointer dereference".

(** [l.Printf] and [l.Println] with the text they are given: the line
    handed to the logger, or the panic of a nil logger. *)
Definition Logger_Print (l : option Logger) (line : string)
    : panicking (list event) :=
  match l with
  | None => Panic nilPointerDereference
  | Some _ => Returned [EvDebugLog line]
  end.

Section Sources.

(** The verifier capability and the client are consumed, not
    implemented, by token_src.go: [Client] is the state behind a
    [*Client] (provider included), [Client_token] its token-endpoint
    call, [Client_Verifier] its verifier constructor, and
    [Token_IsValid] the validity check of a token against a verifier
    ([nil] error, here [None], when valid).  The check is a function of
    the token, the context and the verifier: the clock and the key set
    behind a verifier do not move between two calls that follow each
    other. *)
Context {Client VerifierT : Type}.
Variable Client_token :
  Client -> Context -> string -> string -> Values -> result Token * Client.
Variable Client_Verifier : Client -> VerificationConfig -> option VerifierT.
Variable Token_IsValid : Token -> Context -> option VerifierT -> option error.

(** The [TokenSource] interface; a call of [OIDCToken] returns or
    panics. *)
Class TokenSource (S : Type) : Type := {
  OIDCToken : S -> panicking (outcome S);
  Verifier : S -> option VerifierT
}.

(** *** TokenRefresher

    [OIDCToken] has the same text in src/token_src.go, where the type is
    [tokenRefresher]; a failed or successful token-endpoint call leaves
    the client in the state the call produced. *)
Record TokenRefresher : Type := mkTokenRefresher {
  tf_ctx : Context;
  tf_refreshToken : string;
  tf_client : Client;
  tf_cfg : Config
}.

Definition NewTokenRefresher (ctx : Context) (client : Client) (cfg : Config)
    (refreshToken : string) : TokenRefresher :=
  {| tf_ctx := ctx; tf_refreshToken := refreshToken;
     tf_client := client; tf_cfg := cfg |}.

(** The form of the refresh request. *)
Definition refreshForm (tf : TokenRefresher) : Values :=
  let v : Values :=
    <["grant_type" := [GrantTypeRefreshToken]]>
      (<["refresh_token" := [tf_refreshToken tf]]> ∅) in
  if (0 <? List.length (Scopes (tf_cfg tf)))%nat
  then Values_Set v "scope" (strings_Join (Scopes (tf_cfg tf)) " ")
  else v.

Definition TokenRefresher_OIDCToken (tf : TokenRefresher)
    : outcome TokenRefresher :=
  if String.eqb (tf_refreshToken tf) "" then
    mkOutcome None
      (Some (errors_New "oauth2: token expired and refresh token is not set"))
      tf []
  else
    let v := refreshForm tf in
    let call := EvTokenRequest (tf_ctx tf) (ClientID (tf_cfg tf))
                  (ClientSecret (tf_cfg tf)) v in
    match Client_token (tf_client tf) (tf_ctx tf) (ClientID (tf_cfg tf))
            (ClientSecret (tf_cfg tf)) v with
    | (Err err, client') =>
        mkOutcome None (Some err)
          {| tf_ctx := tf_ctx tf; tf_refreshToken := tf_refreshToken tf;
             tf_client := client'; tf_cfg := tf_cfg tf |}
          [call]
    | (Ok tk, client') =>
        let refreshToken' :=
          if negb (String.eqb (tf_refreshToken tf) (RefreshToken tk))
          then RefreshToken tk
          else tf_refreshToken tf in
        mkOutcome (Some tk) None
          {| tf_ctx := tf_ctx tf; tf_refreshToken := refreshToken';
             tf_client := client'; tf_cfg := tf_cfg tf |}
          [call]
    end.

Definition TokenRefresher_Verifier (tf : TokenRefresher) : option VerifierT :=
  Client_Verifier (tf_client tf)
    {| vcClientID := ClientID (tf_cfg tf) |}.

#[export] Instance TokenRefresher_TokenSource : TokenSource TokenRefresher := {
  OIDCToken := fun tf => Returned (TokenRefresher_OIDCToken tf);
  Verifier := TokenRefresher_Verifier
}.

(** *** staticTokenSource *)
Record staticTokenSource : Type := mkStaticTokenSource {
  st_t : option Token
}.

Definition StaticTokenSource (t : option Token) : staticTokenSource :=
  {| st_t := t |}.

Definition staticTokenSource_OIDCToken (s : staticTokenSource)
    : outcome staticTokenSource :=
  mkOutcome (st_t s) None s [].

Definition staticTokenSource_Verifier (s : staticTokenSource)
    : option VerifierT := None.

#[export] Instance staticTokenSource_TokenSource
    : TokenSource staticTokenSource := {
  OIDCToken := fun s => Returned (staticTokenSource_OIDCToken s);
  Verifier := staticTokenSource_Verifier
}.

(** *** ReuseTokenSource

    [mu] is held for the whole of [OIDCToken] and of [reset], so each
    call is one atomic step on the record.  A call that panics leaves the
    record as it was. *)
Section Reuse.
Context {S : Type} `{src : TokenSource S}.

Record ReuseTokenSource : Type := mkReuseTokenSource {
  rs_ctx : Context;
  rs_new : S;
  rs_t : option Token;
  rs_debugLogger : option Logger
}.

Definition NewReuseTokenSource (ctx : Context) (t : option Token)
    (source : S) : ReuseTokenSource :=
  {| rs_ctx := ctx; rs_new := source; rs_t := t;
     rs_debugLogger := Some (log_New ioutil_Discard "" 0) |}.

Definition NewReuseTokenSourceWithDebugLogger (ctx : Context)
    (debugLogger : option Logger) (t : option Token) (source : S)
    : ReuseTokenSource :=
  {| rs_ctx := ctx; rs_new := source; rs_t := t;
     rs_debugLogger := debugLogger |}.

Definition ReuseTokenSource_Verifier (s : ReuseTokenSource)
    : option VerifierT :=
  Verifier (rs_new s).

(** The tail of [OIDCToken], from [s.new.OIDCToken()] on; a panic of the
    wrapped source goes through. *)
Definition obtainNew (s : ReuseTokenSource) (before : list event)
    : panicking (outcome ReuseTokenSource) :=
  match OIDCToken (rs_new s) with
  | Panic e => Panic e
  | Returned r =>
      let tr := before ++ EvNewOIDCToken :: ret_trace r in
      match ret_err r with
      | Some err =>
          Returned
            (mkOutcome None (Some err)
               {| rs_ctx := rs_ctx s; rs_new := ret_self r; rs_t := rs_t s;
                  rs_debugLogger := rs_debugLogger s |} tr)
      | None =>
          Returned
            (mkOutcome (ret_token r) None
               {| rs_ctx := rs_ctx s; rs_new := ret_self r;
                  rs_t := ret_token r;
                  rs_debugLogger := rs_debugLogger s |} tr)
      end
  end.

Definition ReuseTokenSource_OIDCToken (s : ReuseTokenSource)
    : panicking (outcome ReuseTokenSource) :=
  match rs_t s with
  | Some t =>
      match Token_IsValid t (rs_ctx s) (ReuseTokenSource_Verifier s) with
      | None => Returned (mkOutcome (Some t) None s [EvIsValid t])
      | Some err =>
          match Logger_Print (rs_debugLogger s)
                  ("reuseTokenSource: Token not valid. Obtaining new one. Cause: "
                   +:+ Error err +:+ newline) with
          | Panic e => Panic e
          | Returned logged => obtainNew s (EvIsValid t :: logged)
          end
      end
  | None =>
      match Logger_Print (rs_debugLogger s)
              ("reuseTokenSource: No token to reuse. Obtaining new one"
               +:+ newline) with
      | Panic e => Panic e
      | Returned logged => obtainNew s logged
      end
  end.

(** [OIDCToken] as src/token_src.go has it, before the debug logger
    and [reset] were added: [Token.Valid] reports a boolean and nothing
    is logged. *)
Variable Token_Valid : Token -> Context -> option VerifierT -> bool.

Definition ReuseTokenSource_OIDCToken_token_src (s : ReuseTokenSource)
    : panicking (outcome ReuseTokenSource) :=
  match rs_t s with
  | Some t =>
      if Token_Valid t (rs_ctx s) (ReuseTokenSource_Verifier s)
      then Returned (mkOutcome (Some t) None s [EvIsValid t])
      else obtainNew s [EvIsValid t]
  | None => obtainNew s []
  end.

Definition ReuseTokenSource_reset (s : ReuseTokenSource)
    : ReuseTokenSource :=
  {| rs_ctx := rs_ctx s; rs_new := rs_new s; rs_t := None;
     rs_debugLogger := rs_debugLogger s |}.

#[export] Instance ReuseTokenSource_TokenSource
    : TokenSource ReuseTokenSource := {
  OIDCToken := ReuseTokenSource_OIDCToken;
  Verifier := ReuseTokenSource_Verifier
}.

End Reuse.

Fixpoint TokenRefresher_calls (n : nat) (tf : TokenRefresher)
    : TokenRefresher * list (outcome TokenRefresher) :=
  match n with
  | O => (tf, [])
  | Datatypes.S n' =>
      let r := TokenRefresher_OIDCToken tf in
      let '(tf', rs) := TokenRefresher_calls n' (ret_self r) in
      (tf', r :: rs)
  end.

End Sources.

Arguments TokenRefresher : clear implicits.
Arguments ReuseTokenSource : clear implicits.

(** *** Reading the result of a call *)

(** A call that reaches the token endpoint exactly once, sending
    refresh token [rt]. *)
Definition sends_refresh_token {S : Type} (r : outcome S) (rt : string) : Prop :=
  exists ctx clientID clientSecret v,
    ret_trace r = [EvTokenRequest ctx clientID clientSecret v] /\
    v !! "refresh_token" = Some [rt].

(** The result of a refresher without a refresh token. *)
Definition not_set {S : Type} (r : outcome S) : Prop :=
  ret_token r = None /\
  ret_err r =
    Some (errors_New "oauth2: token expired and refresh token is not set") /\
  ret_trace r = [].

Section Cache.
Context {VerifierT S : Type} `{src : TokenSource VerifierT S}.
Variable Token_IsValid : Token -> Context -> option VerifierT -> option error.

(** The cached token of [s] is one the verifier of the wrapped source
    accepts. *)
Definition cached_valid (s : ReuseTokenSource S) (t : Token) : Prop :=
  rs_t s = Some t /\
  Token_IsValid t (rs_ctx s) (Verifier (rs_new s)) = None.

(** [s] has no cached token, or one the verifier rejects. *)
Definition cache_miss (s : ReuseTokenSource S) : Prop :=
  rs_t s = None \/
  exists t e, rs_t s = Some t /\
    Token_IsValid t (rs_ctx s) (Verifier (rs_new s)) = Some e.

End Cache.

End oidc.

(** ** Package login *)
Module login.
Import oidc.

Definition codeParam : string := "code".
Definition stateParam : string := "state".
Definition errParam : string := "error".
Definition errDescParam : string := "error_description".

Definition http_StatusOK : Z := 200.

Record callbackMsg : Type := mkCallbackMsg {
  token : option Token;
  err : option error
}.

Definition parseCallbackRequest (form : Values) : result (string * string) :=
  let state := Values_Get form stateParam in
  if String.eqb state "" then
    Err (errors_New "User session error. No state parameter.")
  else
    let errorCode := Values_Get form errParam in
    if negb (String.eqb errorCode "") then
      Err (errorString ("Got error from provider: " +:+ errorCode +:+
                        " Desc: " +:+ Values_Get form errDescParam))
    else
      let code := Values_Get form codeParam in
      if String.eqb code "" then
        Err (errors_New "Missing code token.")
      else Ok (code, state).

(** [http.ResponseWriter]: the status line once written and the body so
    far.  [WriteHeader] after the header is out changes nothing; [Write]
    sends the header with status 200 first when none is out. *)
Record ResponseWriter : Type := mkResponseWriter {
  rw_status : option Z;
  rw_body : string
}.

Definition newResponseWriter : ResponseWriter :=
  {| rw_status := None; rw_body := "" |}.

Definition WriteHeader (w : ResponseWriter) (statusCode : Z) : ResponseWriter :=
  match rw_status w with
  | Some _ => w
  | None => {| rw_status := Some statusCode; rw_body := rw_body w |}
  end.

Definition Write (w : ResponseWriter) (b : string) : ResponseWriter :=
  let w' := WriteHeader w http_StatusOK in
  {| rw_status := rw_status w'; rw_body := rw_body w' +:+ b |}.

(** [*http.Request] as the handler reads it: its context, what
    [ParseForm] returns and the form [ParseForm] leaves in [r.Form]. *)
Record Request : Type := mkRequest {
  r_Context : Context;
  r_ParseForm : option error;
  r_Form : Values
}.

Definition OKCallbackResponse (w : ResponseWriter) (_ : Request)
    : ResponseWriter :=
  let w := WriteHeader w http_StatusOK in
  Write w "OIDC authentication flow is completed. You can close browser tab.".

Definition ErrCallbackResponse (w : ResponseWriter) (_ : Request) (_ : error)
    : ResponseWriter :=
  let w := WriteHeader w http_StatusOK in
  Write w "OIDC authentication flow is completed. You can close browser tab.".

(** The two package-wide function variables; an embedding application
    may assign others. *)
Record responders : Type := mkResponders {
  var_OKCallbackResponse : ResponseWriter -> Request -> ResponseWriter;
  var_ErrCallbackResponse : ResponseWriter -> Request -> error -> ResponseWriter
}.

Definition defaultResponders : responders :=
  {| var_OKCallbackResponse := OKCallbackResponse;
     var_ErrCallbackResponse := ErrCallbackResponse |}.

Definition mergeContexts (originalCtx oidcCtx : Context) : Context :=
  match Context_Value originalCtx HTTPClientCtxKey with
  | Some _ => originalCtx
  | None =>
      context_WithValue originalCtx HTTPClientCtxKey
        (Context_Value oidcCtx HTTPClientCtxKey)
  end.

(** What the handler does outside the response: a call of
    [oidcClient.Exchange] and a send on [callbackChan]. *)
Inductive event : Type :=
| EvExchange (ctx : Context) (cfg : Config) (code : string)
| EvSend (m : callbackMsg).

Definition is_Exchange (e : event) : bool :=
  match e with EvExchange _ _ _ => true | _ => false end.

Definition is_Send (e : event) : bool :=
  match e with EvSend _ => true | _ => false end.

(** One run of the handler: the response, the client after it and the
    trace. *)
Record handled (Client : Type) : Type := mkHandled {
  h_response : ResponseWriter;
  h_client : Client;
  h_trace : list event
}.
Arguments mkHandled {Client} _ _ _.
Arguments h_response {Client} _.
Arguments h_client {Client} _.
Arguments h_trace {Client} _.

Section Handler.

(** [Client] is the state behind the [*oidc.Client] (provider
    included) and [Client_Exchange] its code exchange, both consumed
    from package oidc. *)
Context {Client : Type}.
Variable Client_Exchange :
  Client -> Context -> Config -> string -> result Token * Client.
Variable vars : responders.

(** [errRespond] answers the browser and then sends the error; [before]
    is the trace of the run so far and [oidcClient] the client as the run
    leaves it. *)
Definition errRespond (w : ResponseWriter) (r : Request) (e : error)
    (oidcClient : Client) (before : list event) : handled Client :=
  let callbackResponse := {| token := None; err := Some e |} in
  let w := var_ErrCallbackResponse vars w r e in
  mkHandled w oidcClient (before ++ [EvSend callbackResponse]).

Definition callbackHandler (oidcCtx : Context) (oidcClient : Client)
    (oidcConfig : Config) (expectedState : string)
    (w : ResponseWriter) (r : Request) : handled Client :=
  let ctx := mergeContexts (r_Context r) oidcCtx in
  match r_ParseForm r with
  | Some e =>
      let e := errorString ("Failed to parse request form. Err: " +:+ Error e) in
      errRespond w r e oidcClient []
  | None =>
      match parseCallbackRequest (r_Form r) with
      | Err e => errRespond w r e oidcClient []
      | Ok (code, state) =>
          if negb (String.eqb state expectedState) then
            let e := errorString ("Invalid state parameter. Got " +:+ state +:+
                                  ", expected: " +:+ expectedState) in
            errRespond w r e oidcClient []
          else
            match Client_Exchange oidcClient ctx oidcConfig code with
            | (Err e, oidcClient') =>
                errRespond w r e oidcClient' [EvExchange ctx oidcConfig code]
            | (Ok oidcToken, oidcClient') =>
                let callbackResponse :=
                  {| token := Some oidcToken; err := None |} in
                let w := var_OKCallbackResponse vars w r in
                mkHandled w oidcClient'
                  [EvExchange ctx oidcConfig code; EvSend callbackResponse]
            end
      end
  end.

(** The listener serving requests one after the other with the one
    handler closure of a login attempt, a fresh response writer for
    each: the responses in order, the client at the end and the whole
    trace. *)
Fixpoint serve (oidcCtx : Context) (oidcClient : Client)
    (oidcConfig : Config) (expectedState : string) (rs : list Request)
    : list ResponseWriter * Client * list event :=
  match rs with
  | [] => ([], oidcClient, [])
  | r :: rest =>
      let h := callbackHandler oidcCtx oidcClient oidcConfig expectedState
                 newResponseWriter r in
      let '(ws, c, tr) :=
        serve oidcCtx (h_client h) oidcConfig expectedState rest in
      (h_response h :: ws, c, h_trace h ++ tr)
  end.

End Handler.

(** A run that sent the error [e] as its one outcome and made no
    exchange: the client is the [c] it started with. *)
Definition rejected {Client : Type} (c : Client) (h : handled Client)
    (e : error) : Prop :=
  h_trace h = [EvSend {| token := None; err := Some e |}] /\ h_client h = c.

(** A callback the handler takes to the exchange: its form parsed, its
    [state] is non-empty and the expected one, it has no [error] and a
    non-empty [code]. *)
Definition valid_callback (expectedState : string) (r : Request) : Prop :=
  r_ParseForm r = None /\
  Values_Get (r_Form r) stateParam <> "" /\
  Values_Get (r_Form r) stateParam = expectedState /\
  Values_Get (r_Form r) errParam = "" /\
  Values_Get (r_Form r) codeParam <> "".

(** [rand128Bits]: [ReadFull] is what [io.ReadFull(rand.Reader, buff)]
    gives for the 16-byte buffer, the bytes read or its error. *)
Definition rand128Bits (ReadFull : nat -> result (list Byte.byte))
    : panicking string :=
  match ReadFull 16%nat with
  | Err e => Panic e
  | Ok buff =>
      Returned (strings_TrimRight (base64_URLEncoding_EncodeToString buff) "=")
  end.

(** [openBrowser]: the command and the arguments handed to
    [exec.Command], for the value of [runtime.GOOS]; [Start] is the start
    of the process. *)
Definition openBrowser_command (GOOS url : string) : string * list string :=
  let '(cmd, args) :=
    if String.eqb GOOS "windows" then ("cmd", ["/c"; "start"])
    else if String.eqb GOOS "darwin" then ("open", [])
    else ("xdg-open", []) in
  (cmd, args ++ [url]).

Definition openBrowser (Start : string -> list string -> option error)
    (GOOS url : string) : option error :=
  let '(cmd, args) := openBrowser_command GOOS url in
  Start cmd args.

End login.

(** ** Concrete collaborators

    A provider and requests on which the definitions above run: used to
    evaluate the handler and the token sources on explicit inputs. *)
Module fixtures.
Import oidc.

Definition cfg : Config :=
  {| ClientID := "cli"; ClientSecret := "s3cret"; Scopes := ["openid"; "email"] |}.

Definition tokenWith (refreshToken : string) : Token :=
  {| AccessToken := "access-1"; RefreshToken := refreshToken;
     IDToken := "id-1"; AccessTokenExpiry := 3600 |}.

(** A token endpoint that rotates refresh token "r1" into "r2", answers
    "r2" with a token that carries no refresh token, and rejects any
    other; the client state counts the requests it has made. *)
Definition provider_token (c : nat) (_ : Context) (_ _ : string) (v : Values)
    : result Token * nat :=
  let rt := Values_Get v "refresh_token" in
  if String.eqb rt "r1" then (Ok (tokenWith "r2"), S c)
  else if String.eqb rt "r2" then (Ok (tokenWith ""), S c)
  else (Err (errorString "invalid_grant"), S c).

Definition provider_Verifier (_ : nat) (vc : VerificationConfig) : option string :=
  Some (vcClientID vc).

(** A token is valid for a verifier when it has an identity token. *)
Definition idToken_IsValid (t : Token) (_ : Context) (v : option string)
    : option error :=
  match v with
  | None => Some (errorString "no verifier")
  | Some _ =>
      if String.eqb (IDToken t) "" then Some (errorString "no ID token")
      else None
  end.

(** A provider whose authorization codes are single-use: the client
    state is the list of codes already redeemed. *)
Definition provider_Exchange (redeemed : list string) (_ : Context)
    (_ : Config) (code : string) : result Token * list string :=
  if bool_decide (code ∈ redeemed)
  then (Err (errorString "invalid_grant: code already redeemed"), redeemed)
  else (Ok (tokenWith "r1"), code :: redeemed).

Definition form (kvs : list (string * string)) : Values :=
  list_to_map (prod_map id (fun v => [v]) <$> kvs).

Definition get (kvs : list (string * string)) : login.Request :=
  {| login.r_Context := context_Background;
     login.r_ParseForm := None;
     login.r_Form := form kvs |}.

Definition validCallback : login.Request :=
  get [("code", "c0de"); ("state", "A")].

Definition providerErrorWithoutState : login.Request :=
  get [("error", "access_denied"); ("error_description", "user cancelled")].

Definition providerErrorWithState : login.Request :=
  get [("state", "A"); ("error", "access_denied");
       ("error_description", "user cancelled")].

Definition wrongStateCallback : login.Request :=
  get [("code", "c0de"); ("state", "B")].

(** The refresher and the reusing source on the rotating provider. *)
Definition held (refreshToken : string) : TokenRefresher nat :=
  NewTokenRefresher context_Background 0%nat cfg refreshToken.

#[export] Instance provider_source : TokenSource (TokenRefresher nat) :=
  TokenRefresher_TokenSource provider_token provider_Verifier.

Definition reusing (t : option Token) (refreshToken : string)
    : ReuseTokenSource (TokenRefresher nat) :=
  NewReuseTokenSource context_Background t (held refreshToken).

(** The same reusing source with the debug logger the caller passes,
    nil included. *)
Definition reusingWith (debugLogger : option Logger) (t : option Token)
    (refreshToken : string) : ReuseTokenSource (TokenRefresher nat) :=
  NewReuseTokenSourceWithDebugLogger context_Background debugLogger t
    (held refreshToken).

(** A reusing source over a static source. *)
Definition reusingStatic (t static : option Token)
    : ReuseTokenSource staticTokenSource :=
  NewReuseTokenSource context_Background t (StaticTokenSource static).

(** One run of the handler of the attempt that expects state "A", with
    the default responders, on the single-use-code provider. *)
Definition attempt (redeemed : list string) (r : login.Request)
    : login.handled (list string) :=
  login.callbackHandler provider_Exchange login.defaultResponders
    context_Background redeemed cfg "A" login.newResponseWriter r.

(** A token without an identity token, which [idToken_IsValid] rejects,
    and the boolean reading of that check. *)
Definition staleToken : Token :=
  {| AccessToken := "access-0"; RefreshToken := "r1";
     IDToken := ""; AccessTokenExpiry := 0 |}.

Definition idToken_Valid (t : Token) (ctx : Context) (v : option string) : bool :=
  match idToken_IsValid t ctx v with
  | None => true
  | Some _ => false
  end.

(** Two random sources: one reads zero bytes only, the other a one
    followed by zero bytes. *)
Definition zeros_ReadFull (n : nat) : result (list Byte.byte) :=
  Ok (repeat Byte.x00 n).

Definition one_ReadFull (n : nat) : result (list Byte.byte) :=
  match n with
  | O => Ok []
  | S n' => Ok (Byte.x01 :: repeat Byte.x00 n')
  end.

(** Requests for the further properties: the same callback with a second
    [code] value and an unrelated parameter, a callback without [state]
    and one without [code]. *)
Definition noisyCallback : login.Request :=
  {| login.r_Context := context_Background;
     login.r_ParseForm := None;
     login.r_Form :=
       <["code" := ["c0de"; "other"]]>
         (<["state" := ["A"]]> (<["utm" := ["x"]]> ∅)) |}.

Definition noStateCallback : login.Request :=
  get [("code", "c0de")].

Definition noCodeCallback : login.Request :=
  get [("state", "B")].

(** A request context with a value of its own and no HTTP client, and a
    flow context with an HTTP client. *)
Definition requestCtx : Context :=
  context_WithValue context_Background (otherCtxKey "trace") (Some "t-1").

Definition flowCtx : Context :=
  context_WithValue context_Background HTTPClientCtxKey (Some "flow-client").

End fixtures.

(** * Properties of the token sources *)
Module TokenSourceSpec.
Import oidc.

Example provider_rotates :
  ret_token (TokenRefresher_OIDCToken fixtures.provider_token
               (NewTokenRefresher context_Background 0%nat fixtures.cfg "r1"))
  = Some (fixtures.tokenWith "r2").
Proof. vm_compute. reflexivity. Qed.

Section Refresher.
Context {Client : Type}.
Variable Client_token :
  Client -> Context -> string -> string -> Values -> result Token * Client.

Local Abbreviation OIDCToken := (TokenRefresher_OIDCToken Client_token).
Local Abbreviation calls := (TokenRefresher_calls Client_token).
Local Abbreviation endpoint tf :=
  (Client_token (tf_client tf) (tf_ctx tf) (ClientID (tf_cfg tf))
     (ClientSecret (tf_cfg tf)) (refreshForm tf)).

Lemma refreshForm_refresh_token (tf : TokenRefresher Client) :
  refreshForm tf !! "refresh_token" = Some [tf_refreshToken tf].
Proof.
  unfold refreshForm, Values_Set.
  destruct (0 <? _)%nat.
  - rewrite lookup_insert_ne by discriminate.
    rewrite lookup_insert_ne by discriminate.
    apply lookup_insert_eq.
  - rewrite lookup_insert_ne by discriminate.
    apply lookup_insert_eq.
Qed.

Lemma OIDCToken_empty (tf : TokenRefresher Client) :
  tf_refreshToken tf = "" ->
  OIDCToken tf =
  mkOutcome None
    (Some (errors_New "oauth2: token expired and refresh token is not set"))
    tf [].
Proof.
  intros H. unfold TokenRefresher_OIDCToken. rewrite H. reflexivity.
Qed.

Lemma OIDCToken_held (tf : TokenRefresher Client) :
  tf_refreshToken tf <> "" ->
  OIDCToken tf =
  match endpoint tf with
  | (Err e, client') =>
      mkOutcome None (Some e)
        {| tf_ctx := tf_ctx tf; tf_refreshToken := tf_refreshToken tf;
           tf_client := client'; tf_cfg := tf_cfg tf |}
        [EvTokenRequest (tf_ctx tf) (ClientID (tf_cfg tf))
           (ClientSecret (tf_cfg tf)) (refreshForm tf)]
  | (Ok tk, client') =>
      mkOutcome (Some tk) None
        {| tf_ctx := tf_ctx tf; tf_refreshToken := RefreshToken tk;
           tf_client := client'; tf_cfg := tf_cfg tf |}
        [EvTokenRequest (tf_ctx tf) (ClientID (tf_cfg tf))
           (ClientSecret (tf_cfg tf)) (refreshForm tf)]
  end.
Proof.
  intros H. unfold TokenRefresher_OIDCToken.
  apply String.eqb_neq in H. rewrite H.
  destruct (endpoint tf) as [[tk|e] client']; [|reflexivity].
  destruct (String.eqb_spec (tf_refreshToken tf) (RefreshToken tk)) as [E|E];
    simpl; [rewrite E|]; reflexivity.
Qed.

Lemma OIDCToken_empty_not_set (tf : TokenRefresher Client) :
  tf_refreshToken tf = "" ->
  not_set (OIDCToken tf) /\
  List.filter is_TokenRequest (ret_trace (OIDCToken tf)) = [] /\
  ret_self (OIDCToken tf) = tf.
Proof.
  intros H. rewrite (OIDCToken_empty tf H). unfold not_set.
  repeat split; reflexivity.
Qed.

Lemma calls_empty (n : nat) (tf : TokenRefresher Client) :
  tf_refreshToken tf = "" ->
  calls n tf = (tf, repeat (OIDCToken tf) n).
Proof.
  intros H. induction n as [|n IH]; [reflexivity|].
  cbn [TokenRefresher_calls repeat].
  rewrite (OIDCToken_empty tf H) in *. cbn [ret_self].
  rewrite IH. reflexivity.
Qed.

(** C8: a refresher that holds the empty refresh token fails at once:
    it returns the "refresh token is not set" error and no token, makes
    no token-endpoint call, and is left as it was. *)
Theorem TokenRefresher_no_refresh_token (tf : TokenRefresher Client) :
  tf_refreshToken tf = "" ->
  not_set (OIDCToken tf) /\
  List.filter is_TokenRequest (ret_trace (OIDCToken tf)) = [] /\
  ret_self (OIDCToken tf) = tf.
Proof. exact (OIDCToken_empty_not_set tf). Qed.

(** C7, amended: when the refresher holds a non-empty refresh token and
    the token endpoint answers with a token whose refresh token differs
    from the one sent, the refresher holds the returned value after the
    call; when that value is not empty, the next call sends it to the
    token endpoint. *)
Theorem TokenRefresher_rotation (tf : TokenRefresher Client) (tk : Token)
    (client' : Client) :
  tf_refreshToken tf <> "" ->
  endpoint tf = (Ok tk, client') ->
  RefreshToken tk <> tf_refreshToken tf ->
  sends_refresh_token (OIDCToken tf) (tf_refreshToken tf) /\
  ret_token (OIDCToken tf) = Some tk /\
  tf_refreshToken (ret_self (OIDCToken tf)) = RefreshToken tk /\
  (RefreshToken tk <> "" ->
   sends_refresh_token (OIDCToken (ret_self (OIDCToken tf))) (RefreshToken tk)).
Proof.
  intros Hheld Hcall _.
  rewrite (OIDCToken_held tf Hheld), Hcall. cbn [ret_self ret_token ret_trace].
  split; [|split; [reflexivity|split; [reflexivity|]]].
  - do 4 eexists. split; [reflexivity|]. apply refreshForm_refresh_token.
  - intros Hnew.
    set (tf1 := {| tf_ctx := tf_ctx tf; tf_refreshToken := RefreshToken tk;
                   tf_client := client'; tf_cfg := tf_cfg tf |}).
    rewrite (OIDCToken_held tf1 Hnew).
    destruct (endpoint tf1) as [[tk2|e2] client2]; cbn [ret_trace];
      do 4 eexists; (split; [reflexivity|]);
      apply (refreshForm_refresh_token tf1).
Qed.

(** C9: when the token-endpoint call succeeds with a token whose
    refresh token is empty (so differs from the one sent), the refresher
    then holds the empty refresh token, and every later call, however
    many follow, fails at once with no token-endpoint call and leaves
    the refresher as it is. *)
Theorem TokenRefresher_empty_rotation (tf : TokenRefresher Client) (tk : Token)
    (client' : Client) (n : nat) :
  tf_refreshToken tf <> RefreshToken tk ->
  RefreshToken tk = "" ->
  endpoint tf = (Ok tk, client') ->
  let tf1 := ret_self (OIDCToken tf) in
  tf_refreshToken tf1 = "" /\
  fst (calls n tf1) = tf1 /\
  List.length (snd (calls n tf1)) = n /\
  Forall (fun r => not_set r /\ List.filter is_TokenRequest (ret_trace r) = [] /\
                   ret_self r = tf1)
    (snd (calls n tf1)).
Proof.
  intros Hdiff Hempty Hcall tf1.
  assert (Hheld : tf_refreshToken tf <> "") by congruence.
  assert (H1 : tf_refreshToken tf1 = "").
  { subst tf1. rewrite (OIDCToken_held tf Hheld), Hcall. exact Hempty. }
  split; [exact H1|].
  rewrite (calls_empty n tf1 H1). cbn [fst snd].
  split; [reflexivity|]. split; [apply repeat_length|].
  apply Forall_forall. intros r Hr. apply list_elem_of_In, repeat_spec in Hr. subst r.
  apply OIDCToken_empty_not_set. exact H1.
Qed.

End Refresher.

Section Reuse.
Context {VerifierT S : Type} `{src : TokenSource VerifierT S}.
Variable Token_IsValid : Token -> Context -> option VerifierT -> option error.

Local Abbreviation get := (ReuseTokenSource_OIDCToken Token_IsValid).
Local Abbreviation reset := ReuseTokenSource_reset.

Lemma get_hit (s : ReuseTokenSource S) (t : Token) :
  cached_valid Token_IsValid s t ->
  get s = Returned (mkOutcome (Some t) None s [EvIsValid t]).
Proof.
  intros [Ht Hv]. unfold ReuseTokenSource_OIDCToken, ReuseTokenSource_Verifier.
  rewrite Ht, Hv. reflexivity.
Qed.

(** A miss with a logger: what the call does before the wrapped call is
    at most one validity check and then one debug line. *)
Lemma get_miss (s : ReuseTokenSource S) (lg : Logger) :
  cache_miss Token_IsValid s ->
  rs_debugLogger s = Some lg ->
  exists before,
    get s = obtainNew s before /\
    List.length (List.filter is_DebugLog before) = 1%nat /\
    List.filter is_NewOIDCToken before = [] /\
    (List.length (List.filter is_IsValid before) <= 1)%nat /\
    (rs_t s = None -> List.filter is_IsValid before = []).
Proof.
  unfold ReuseTokenSource_OIDCToken, ReuseTokenSource_Verifier.
  intros [Ht | (t & e & Ht & Hv)] Hl; rewrite Ht, ?Hv, Hl; cbn [Logger_Print];
    eexists; (split; [reflexivity|]); cbn; repeat split; auto; discriminate.
Qed.

(** A miss without a logger panics at the debug line, before the wrapped
    source is called. *)
Lemma get_miss_nil (s : ReuseTokenSource S) :
  cache_miss Token_IsValid s ->
  rs_debugLogger s = None ->
  get s = Panic nilPointerDereference.
Proof.
  unfold ReuseTokenSource_OIDCToken, ReuseTokenSource_Verifier.
  intros [Ht | (t & e & Ht & Hv)] Hl; rewrite Ht, ?Hv, Hl; reflexivity.
Qed.

Lemma obtainNew_error (s : ReuseTokenSource S) (before : list event)
    (inner : outcome S) (e : error) :
  OIDCToken (rs_new s) = Returned inner ->
  ret_err inner = Some e ->
  obtainNew s before =
  Returned
    (mkOutcome None (Some e)
       {| rs_ctx := rs_ctx s; rs_new := ret_self inner; rs_t := rs_t s;
          rs_debugLogger := rs_debugLogger s |}
       (before ++ EvNewOIDCToken :: ret_trace inner)).
Proof. intros Hi He. unfold obtainNew. rewrite Hi, He. reflexivity. Qed.

Lemma obtainNew_ok (s : ReuseTokenSource S) (before : list event)
    (inner : outcome S) :
  OIDCToken (rs_new s) = Returned inner ->
  ret_err inner = None ->
  obtainNew s before =
  Returned
    (mkOutcome (ret_token inner) None
       {| rs_ctx := rs_ctx s; rs_new := ret_self inner;
          rs_t := ret_token inner; rs_debugLogger := rs_debugLogger s |}
       (before ++ EvNewOIDCToken :: ret_trace inner)).
Proof. intros Hi He. unfold obtainNew. rewrite Hi, He. reflexivity. Qed.

(** Whatever the wrapped source returns, [obtainNew] returns after it,
    with its trace behind the delegated call and its state kept. *)
Lemma obtainNew_Returned (s : ReuseTokenSource S) (before : list event)
    (inner : outcome S) :
  OIDCToken (rs_new s) = Returned inner ->
  exists r,
    obtainNew s before = Returned r /\
    ret_trace r = before ++ EvNewOIDCToken :: ret_trace inner /\
    ret_err r = ret_err inner /\
    (ret_err inner = None ->
     ret_token r = ret_token inner /\ rs_t (ret_self r) = ret_token inner) /\
    (ret_err inner <> None ->
     ret_token r = None /\ rs_t (ret_self r) = rs_t s) /\
    rs_new (ret_self r) = ret_self inner /\
    rs_ctx (ret_self r) = rs_ctx s /\
    rs_debugLogger (ret_self r) = rs_debugLogger s.
Proof.
  intros Hi. unfold obtainNew. rewrite Hi.
  destruct (ret_err inner) as [e|]; eexists; (split; [reflexivity|]); cbn.
  - split; [reflexivity|]. split; [reflexivity|]. split; [discriminate|].
    split; [intros _; split; reflexivity|]. repeat split; reflexivity.
  - split; [reflexivity|]. split; [reflexivity|].
    split; [intros _; split; reflexivity|].
    split; [intros Hc; contradiction Hc; reflexivity|].
    repeat split; reflexivity.
Qed.

(** C4: when the cached token is present and the verifier of the
    wrapped source reports it valid, two consecutive [OIDCToken] calls
    both return that token with a nil error, neither calls the wrapped
    source's [OIDCToken], and the source (cache included) is unchanged
    after each. *)
Theorem ReuseTokenSource_cache_reuse (s : ReuseTokenSource S) (t : Token) :
  cached_valid Token_IsValid s t ->
  exists r1 r2,
    get s = Returned r1 /\ get (ret_self r1) = Returned r2 /\
    (ret_token r1 = Some t /\ ret_err r1 = None) /\
    (ret_token r2 = Some t /\ ret_err r2 = None) /\
    List.filter is_NewOIDCToken (ret_trace r1 ++ ret_trace r2) = [] /\
    ret_self r1 = s /\ ret_self r2 = s.
Proof.
  intros H. do 2 eexists.
  split; [apply (get_hit s t H)|]. cbn [ret_self].
  split; [apply (get_hit s t H)|]. cbn. repeat split; reflexivity.
Qed.


(** C6: the first [OIDCToken] call after [reset] finds the cache empty.
    With a debug logger it checks no token against the verifier and calls
    the wrapped source's [OIDCToken], whatever token was cached before
    and whether or not it was valid: what it does before the wrapped call
    has no validity check, and its result is the wrapped source's.  With
    a nil debug logger it panics at the debug line and the wrapped source
    is not called. *)
Theorem ReuseTokenSource_reset_forces_refresh (s : ReuseTokenSource S) :
  rs_t (reset s) = None /\
  match rs_debugLogger s with
  | None => get (reset s) = Panic nilPointerDereference
  | Some _ =>
      match OIDCToken (rs_new s) with
      | Panic e => get (reset s) = Panic e
      | Returned inner =>
          exists r,
            get (reset s) = Returned r /\
            (exists before,
               ret_trace r = before ++ EvNewOIDCToken :: ret_trace inner /\
               List.filter is_IsValid before = [] /\
               List.filter is_NewOIDCToken before = []) /\
            ret_err r = ret_err inner /\
            (ret_err inner = None ->
             ret_token r = ret_token inner /\
             rs_t (ret_self r) = ret_token inner) /\
            rs_new (ret_self r) = ret_self inner
      end
  end.
Proof.
  split; [reflexivity|].
  assert (Hmiss : cache_miss Token_IsValid (reset s)) by (left; reflexivity).
  destruct (rs_debugLogger s) as [lg|] eqn:Hl.
  - destruct (get_miss (reset s) lg Hmiss Hl) as (before & -> & _ & Hn & _ & Hv).
    destruct (OIDCToken (rs_new s)) as [inner|e] eqn:Hi.
    + destruct (obtainNew_Returned (reset s) before inner Hi)
        as (r & -> & Htr & Herr & Hok & _ & Hnew & _).
      exists r. split; [reflexivity|]. split.
      { exists before. split; [exact Htr|]. split; [apply Hv; reflexivity|exact Hn]. }
      split; [exact Herr|]. split; [exact Hok|exact Hnew].
    + unfold obtainNew. cbn [rs_new ReuseTokenSource_reset]. rewrite Hi.
      reflexivity.
  - apply get_miss_nil; assumption.
Qed.

(** src/token_src.go: with [Token.Valid] the boolean reading of the
    validity check, the earlier [OIDCToken] does what the later one does
    when the later one has a debug logger: both panic with the wrapped
    source or both return the same token and error and leave the same
    source; only the debug lines differ. *)
Lemma ReuseTokenSource_OIDCToken_token_src_agrees
    (Token_Valid : Token -> Context -> option VerifierT -> bool)
    (s : ReuseTokenSource S) (lg : Logger) :
  (forall t ctx v, Token_Valid t ctx v = true <-> Token_IsValid t ctx v = None) ->
  rs_debugLogger s = Some lg ->
  match ReuseTokenSource_OIDCToken_token_src Token_Valid s, get s with
  | Returned r0, Returned r =>
      ret_token r0 = ret_token r /\
      ret_err r0 = ret_err r /\
      ret_self r0 = ret_self r /\
      List.filter is_NewOIDCToken (ret_trace r0) =
      List.filter is_NewOIDCToken (ret_trace r)
  | Panic e0, Panic e => e0 = e
  | _, _ => False
  end.
Proof.
  intros Hv Hl.
  unfold ReuseTokenSource_OIDCToken_token_src, ReuseTokenSource_OIDCToken.
  rewrite Hl. cbn [Logger_Print].
  destruct (rs_t s) as [t|].
  - specialize (Hv t (rs_ctx s) (ReuseTokenSource_Verifier s)).
    destruct (Token_Valid t _ _), (Token_IsValid t _ _) as [e|].
    + destruct Hv as [Hv _]. discriminate (Hv eq_refl).
    + repeat split; reflexivity.
    + unfold obtainNew. destruct (OIDCToken (rs_new s)) as [inner|pe];
        [|reflexivity].
      destruct (ret_err inner); repeat split; reflexivity.
    + destruct Hv as [_ Hv]. discriminate (Hv eq_refl).
  - unfold obtainNew. destruct (OIDCToken (rs_new s)) as [inner|pe];
      [|reflexivity].
    destruct (ret_err inner); repeat split; reflexivity.
Qed.

End Reuse.

(** ** The refresher and the reusing source on the rotating provider *)
Import fixtures.

Lemma TokenRefresher_no_refresh_token_witness :
  tf_refreshToken (held "") = "" /\
  not_set (TokenRefresher_OIDCToken fixtures.provider_token (held "")) /\
  List.filter is_TokenRequest
    (ret_trace (TokenRefresher_OIDCToken fixtures.provider_token (held ""))) = [] /\
  ret_self (TokenRefresher_OIDCToken fixtures.provider_token (held "")) = held "".
Proof.
  split; [reflexivity|].
  apply (TokenRefresher_no_refresh_token fixtures.provider_token (held "")).
  reflexivity.
Defined.

(** C7 as stated fails when the token returned carries no refresh token:
    the refresher holding "r2" is answered with an empty refresh token,
    which differs from the one sent; it then holds the empty string and its
    next call returns the "not set" error without reaching the token
    endpoint, so it sends nothing. *)
Lemma TokenRefresher_rotation_counterexample :
  let tf := held "r2" in
  let r1 := TokenRefresher_OIDCToken fixtures.provider_token tf in
  let r2 := TokenRefresher_OIDCToken fixtures.provider_token (ret_self r1) in
  tf_refreshToken tf <> "" /\
  ret_token r1 = Some (fixtures.tokenWith "") /\ ret_err r1 = None /\
  RefreshToken (fixtures.tokenWith "") <> tf_refreshToken tf /\
  tf_refreshToken (ret_self r1) = RefreshToken (fixtures.tokenWith "") /\
  ret_trace r2 = [] /\
  ~ sends_refresh_token r2 (RefreshToken (fixtures.tokenWith "")).
Proof.
  cbv zeta. repeat split; try reflexivity; try discriminate.
  intros (ctx & clientID & clientSecret & v & H & _).
  vm_compute in H. discriminate H.
Qed.

Lemma TokenRefresher_rotation_witness :
  let tf := held "r1" in
  let r1 := TokenRefresher_OIDCToken fixtures.provider_token tf in
  tf_refreshToken tf <> "" /\
  RefreshToken (fixtures.tokenWith "r2") <> tf_refreshToken tf /\
  sends_refresh_token r1 "r1" /\
  ret_token r1 = Some (fixtures.tokenWith "r2") /\
  tf_refreshToken (ret_self r1) = "r2" /\
  ("r2" <> "" ->
   sends_refresh_token
     (TokenRefresher_OIDCToken fixtures.provider_token (ret_self r1)) "r2").
Proof.
  cbv zeta. split; [discriminate|]. split; [discriminate|].
  apply (TokenRefresher_rotation fixtures.provider_token (held "r1")
           (fixtures.tokenWith "r2") 1%nat).
  - discriminate.
  - vm_compute. reflexivity.
  - discriminate.
Defined.

Lemma TokenRefresher_empty_rotation_witness :
  let tf := held "r2" in
  let tf1 := ret_self (TokenRefresher_OIDCToken fixtures.provider_token tf) in
  tf_refreshToken tf <> "" /\
  tf_refreshToken tf1 = "" /\
  fst (TokenRefresher_calls fixtures.provider_token 3 tf1) = tf1 /\
  List.length (snd (TokenRefresher_calls fixtures.provider_token 3 tf1)) = 3%nat /\
  Forall (fun r => not_set r /\
                   List.filter is_TokenRequest (ret_trace r) = [] /\
                   ret_self r = tf1)
    (snd (TokenRefresher_calls fixtures.provider_token 3 tf1)).
Proof.
  cbv zeta. split; [discriminate|].
  apply (TokenRefresher_empty_rotation fixtures.provider_token (held "r2")
           (fixtures.tokenWith "") 1%nat 3%nat).
  - discriminate.
  - reflexivity.
  - vm_compute. reflexivity.
Defined.

Lemma ReuseTokenSource_cache_reuse_witness :
  let s := reusing (Some (fixtures.tokenWith "r1")) "r1" in
  let t := fixtures.tokenWith "r1" in
  cached_valid fixtures.idToken_IsValid s t /\
  exists r1 r2,
    ReuseTokenSource_OIDCToken fixtures.idToken_IsValid s = Returned r1 /\
    ReuseTokenSource_OIDCToken fixtures.idToken_IsValid (ret_self r1)
      = Returned r2 /\
    (ret_token r1 = Some t /\ ret_err r1 = None) /\
    (ret_token r2 = Some t /\ ret_err r2 = None) /\
    List.filter is_NewOIDCToken (ret_trace r1 ++ ret_trace r2) = [] /\
    ret_self r1 = s /\ ret_self r2 = s.
Proof.
  cbv zeta.
  assert (H : cached_valid fixtures.idToken_IsValid
                (reusing (Some (fixtures.tokenWith "r1")) "r1")
                (fixtures.tokenWith "r1")).
  { split; vm_compute; reflexivity. }
  split; [exact H|].
  exact (ReuseTokenSource_cache_reuse fixtures.idToken_IsValid _ _ H).
Defined.


(** After [reset], a source whose cached token was valid goes to the
    provider: the call logs, delegates and reaches the token endpoint. *)
Example reset_then_refresh :
  match ReuseTokenSource_OIDCToken fixtures.idToken_IsValid
          (ReuseTokenSource_reset
             (reusing (Some (fixtures.tokenWith "r1")) "r1")) with
  | Returned r =>
      ret_trace r =
      [EvDebugLog ("reuseTokenSource: No token to reuse. Obtaining new one"
                   +:+ newline);
       EvNewOIDCToken;
       EvTokenRequest context_Background "cli" "s3cret"
         (refreshForm (held "r1"))] /\
      ret_token r = Some (fixtures.tokenWith "r2")
  | Panic _ => False
  end.
Proof. vm_compute. split; reflexivity. Qed.

(** The same source made with a nil debug logger panics after [reset]
    and makes no token request. *)
Example reset_then_panic :
  ReuseTokenSource_OIDCToken fixtures.idToken_IsValid
    (ReuseTokenSource_reset
       (reusingWith None (Some (fixtures.tokenWith "r1")) "r1"))
  = Panic nilPointerDereference.
Proof. vm_compute. reflexivity. Qed.

End TokenSourceSpec.

(** * Properties of the callback handler *)
Module CallbackSpec.
Import oidc login.

Lemma prefix_app (s t : string) : String.prefix s (s +:+ t) = true.
Proof.
  induction s as [|a s IH]; simpl.
  - destruct t; reflexivity.
  - rewrite IH. destruct (Ascii.ascii_dec a a); [reflexivity|contradiction].
Qed.

Lemma strings_Contains_here (s t : string) :
  String.prefix t s = true -> strings_Contains s t = true.
Proof. intros H. destruct s; cbn [strings_Contains]; rewrite H; reflexivity. Qed.

Lemma strings_Contains_app_r (a t s : string) :
  strings_Contains t s = true -> strings_Contains (a +:+ t) s = true.
Proof.
  intros H. induction a as [|c a IH]; [exact H|].
  change (String c a +:+ t) with (String c (a +:+ t)).
  cbn [strings_Contains]. rewrite IH. apply orb_true_r.
Qed.

Lemma strings_Contains_app (a s b : string) :
  strings_Contains (a +:+ s +:+ b) s = true.
Proof. apply strings_Contains_app_r, strings_Contains_here, prefix_app. Qed.

Lemma strings_Contains_suffix (a s : string) :
  strings_Contains (a +:+ s) s = true.
Proof.
  apply strings_Contains_app_r, strings_Contains_here.
  induction s as [|c s IH]; [reflexivity|].
  simpl. rewrite IH. destruct (Ascii.ascii_dec c c); [reflexivity|contradiction].
Qed.

(** The three ways [parseCallbackRequest] fails and the one it succeeds,
    in the order the code tries them. *)
Lemma parseCallbackRequest_no_state (form : Values) :
  Values_Get form stateParam = "" ->
  parseCallbackRequest form =
  Err (errors_New "User session error. No state parameter.").
Proof. intros H. unfold parseCallbackRequest. rewrite H. reflexivity. Qed.

Lemma parseCallbackRequest_provider_error (form : Values) :
  Values_Get form stateParam <> "" ->
  Values_Get form errParam <> "" ->
  parseCallbackRequest form =
  Err (errorString ("Got error from provider: " +:+ Values_Get form errParam +:+
                    " Desc: " +:+ Values_Get form errDescParam)).
Proof.
  intros Hs He. unfold parseCallbackRequest.
  apply String.eqb_neq in Hs, He. rewrite Hs, He. reflexivity.
Qed.

Lemma parseCallbackRequest_Ok (form : Values) (code state : string) :
  parseCallbackRequest form = Ok (code, state) ->
  state = Values_Get form stateParam /\ state <> "" /\
  Values_Get form errParam = "" /\
  code = Values_Get form codeParam /\ code <> "".
Proof.
  unfold parseCallbackRequest.
  destruct (String.eqb_spec (Values_Get form stateParam) "") as [|Hs];
    [discriminate|].
  destruct (String.eqb_spec (Values_Get form errParam) "") as [He|];
    [|discriminate]. cbn [negb].
  destruct (String.eqb_spec (Values_Get form codeParam) "") as [|Hc];
    [discriminate|].
  intros [= <- <-]. auto.
Qed.

Lemma Values_Get_absent (form : Values) (key : string) :
  form !! key = None -> Values_Get form key = "".
Proof. intros H. unfold Values_Get. rewrite H. reflexivity. Qed.

Section Handler.
Context {Client : Type}.
Variable Client_Exchange :
  Client -> Context -> Config -> string -> result Token * Client.

Section AnyResponders.
Variable vars : responders.
Variables (oidcCtx : Context) (oidcConfig : Config) (expectedState : string).

Local Abbreviation handler c :=
  (callbackHandler Client_Exchange vars oidcCtx c oidcConfig expectedState).
Local Abbreviation served c :=
  (serve Client_Exchange vars oidcCtx c oidcConfig expectedState).

Lemma errRespond_rejected w r e (c : Client) :
  rejected c (errRespond vars w r e c []) e.
Proof. split; reflexivity. Qed.

(** A run of the handler ends with its only send, after at most one
    exchange. *)
Lemma handler_trace (c : Client) (w : ResponseWriter) (r : Request) :
  exists m,
    h_trace (handler c w r) = [EvSend m] \/
    exists ctx code,
      h_trace (handler c w r) = [EvExchange ctx oidcConfig code; EvSend m].
Proof.
  unfold callbackHandler.
  destruct (r_ParseForm r); [eexists; left; reflexivity|].
  destruct (parseCallbackRequest (r_Form r)) as [[code state]|e];
    [|eexists; left; reflexivity].
  destruct (negb _); [eexists; left; reflexivity|].
  destruct (Client_Exchange _ _ _ _) as [[tk|e] c'];
    eexists; right; do 2 eexists; reflexivity.
Qed.

Lemma handler_counts (c : Client) (w : ResponseWriter) (r : Request) :
  List.length (List.filter is_Send (h_trace (handler c w r))) = 1%nat /\
  (List.length (List.filter is_Exchange (h_trace (handler c w r))) <= 1)%nat.
Proof.
  destruct (handler_trace c w r) as [m [-> | (ctx & code & ->)]];
    cbn; split; lia.
Qed.

Lemma handler_mismatch (c : Client) (w : ResponseWriter) (r : Request) :
  Values_Get (r_Form r) stateParam <> expectedState ->
  exists e, rejected c (handler c w r) e /\
    (r_ParseForm r = None ->
     Values_Get (r_Form r) stateParam <> "" ->
     Values_Get (r_Form r) errParam = "" ->
     Values_Get (r_Form r) codeParam <> "" ->
     e = errorString ("Invalid state parameter. Got " +:+
                      Values_Get (r_Form r) stateParam +:+
                      ", expected: " +:+ expectedState)).
Proof.
  intros Hne. unfold callbackHandler.
  destruct (r_ParseForm r) as [pe|].
  { eexists. split; [apply errRespond_rejected|discriminate]. }
  destruct (parseCallbackRequest (r_Form r)) as [[code state]|e] eqn:P.
  - apply parseCallbackRequest_Ok in P as (-> & _ & _ & _ & _).
    apply String.eqb_neq in Hne. rewrite Hne. cbn [negb].
    eexists. split; [apply errRespond_rejected|reflexivity].
  - eexists. split; [apply errRespond_rejected|].
    intros _ Hs He Hc. exfalso. revert P. unfold parseCallbackRequest.
    apply String.eqb_neq in Hs, Hc. rewrite Hs, He, Hc. discriminate.
Qed.

Lemma handler_provider_error (c : Client) (w : ResponseWriter) (r : Request) :
  Values_Get (r_Form r) errParam <> "" ->
  exists e, rejected c (handler c w r) e /\
    (forall pe, r_ParseForm r = Some pe ->
     e = errorString ("Failed to parse request form. Err: " +:+ Error pe)) /\
    (r_ParseForm r = None ->
     Values_Get (r_Form r) stateParam = "" ->
     e = errors_New "User session error. No state parameter.") /\
    (r_ParseForm r = None ->
     Values_Get (r_Form r) stateParam <> "" ->
     e = errorString ("Got error from provider: " +:+
                      Values_Get (r_Form r) errParam +:+ " Desc: " +:+
                      Values_Get (r_Form r) errDescParam)).
Proof.
  intros He. unfold callbackHandler.
  destruct (r_ParseForm r) as [pe|].
  { eexists. split; [apply errRespond_rejected|].
    split; [intros pe' [= <-]; reflexivity|]. split; discriminate. }
  destruct (parseCallbackRequest (r_Form r)) as [[code state]|e] eqn:P.
  - apply parseCallbackRequest_Ok in P as (_ & _ & E & _). contradiction.
  - eexists. split; [apply errRespond_rejected|].
    split; [discriminate|]. split.
    + intros _ Hs. rewrite (parseCallbackRequest_no_state _ Hs) in P. congruence.
    + intros _ Hs. rewrite (parseCallbackRequest_provider_error _ Hs He) in P.
      congruence.
Qed.

(** A valid callback reaches the exchange, whatever the client has
    seen before. *)
Lemma handler_valid_trace (c : Client) (w : ResponseWriter) (r : Request) :
  valid_callback expectedState r ->
  exists m,
    h_trace (handler c w r) =
    [EvExchange (mergeContexts (r_Context r) oidcCtx) oidcConfig
       (Values_Get (r_Form r) codeParam);
     EvSend m].
Proof.
  intros (Hp & Hs & Hm & He & Hc). unfold callbackHandler, parseCallbackRequest.
  rewrite Hp.
  apply String.eqb_neq in Hs, Hc. rewrite Hs, He, Hc. cbn [negb String.eqb].
  apply String.eqb_eq in Hm. rewrite Hm. cbn [negb].
  destruct (Client_Exchange _ _ _ _) as [[tk|e] c']; eexists; reflexivity.
Qed.

Lemma serve_exchanges (rs : list Request) (c : Client) :
  List.Forall (valid_callback expectedState) rs ->
  List.length (List.filter is_Exchange (served c rs).2) = List.length rs.
Proof.
  revert c. induction rs as [|r rs IH]; intros c Hv; [reflexivity|].
  apply List.Forall_cons_iff in Hv as [Hr Hrs].
  cbn [serve].
  set (h := callbackHandler _ _ _ _ _ _ _ _).
  specialize (IH (h_client h) Hrs).
  destruct (serve _ _ _ _ _ _ _) as [[ws c'] tr].
  cbn [fst snd] in *.
  destruct (handler_valid_trace c newResponseWriter r Hr) as [m Hm].
  fold h in Hm. rewrite Hm. cbn. rewrite IH. reflexivity.
Qed.

Lemma serve_counts (rs : list Request) (c : Client) :
  List.length (served c rs).1.1 = List.length rs /\
  List.length (List.filter is_Send (served c rs).2) = List.length rs /\
  (List.length (List.filter is_Exchange (served c rs).2) <= List.length rs)%nat.
Proof.
  revert c. induction rs as [|r rs IH]; intros c; [cbn; auto|].
  cbn [serve].
  set (h := callbackHandler _ _ _ _ _ _ _ _).
  specialize (IH (h_client h)).
  destruct (serve _ _ _ _ _ _ _) as [[ws c'] tr].
  cbn [fst snd] in *.
  destruct (handler_counts c newResponseWriter r) as [H1 H2]. fold h in H1, H2.
  rewrite !List.filter_app, !List.length_app. cbn [List.length]. lia.
Qed.
(** C3: a request whose [state] is non-empty and differs from the
    expected state, with a non-empty [code] and no [error] parameter, gets
    exactly one outcome, an error, and [Exchange] is not called; when the
    form parsed, the error is the invalid-state one. *)
Theorem callbackHandler_state_mismatch (c : Client) (w : ResponseWriter)
    (r : Request) :
  Values_Get (r_Form r) stateParam <> "" ->
  Values_Get (r_Form r) stateParam <> expectedState ->
  Values_Get (r_Form r) codeParam <> "" ->
  r_Form r !! errParam = None ->
  exists e,
    rejected c (handler c w r) e /\
    List.filter is_Exchange (h_trace (handler c w r)) = [] /\
    (r_ParseForm r = None ->
     e = errorString ("Invalid state parameter. Got " +:+
                      Values_Get (r_Form r) stateParam +:+
                      ", expected: " +:+ expectedState)).
Proof.
  intros Hs Hne Hc He.
  destruct (handler_mismatch c w r Hne) as (e & Hrej & Hmsg).
  exists e. split; [exact Hrej|]. split.
  - destruct Hrej as [-> _]. reflexivity.
  - intros Hp. apply Hmsg; auto using Values_Get_absent.
Qed.

(** C2, amended: a request with a non-empty [error] parameter gets
    exactly one outcome, an error, and [Exchange] is not called, whatever
    its other parameters.  When its form parsed and its [state] is
    non-empty, that error is the provider error, whose message contains the
    values of [error] and of [error_description]; when its form parsed and
    its [state] is empty, it is the no-state session error; when its form
    did not parse, it is the parse error. *)
Theorem callbackHandler_provider_error (c : Client) (w : ResponseWriter)
    (r : Request) :
  Values_Get (r_Form r) errParam <> "" ->
  exists e,
    rejected c (handler c w r) e /\
    List.filter is_Exchange (h_trace (handler c w r)) = [] /\
    (r_ParseForm r = None ->
     Values_Get (r_Form r) stateParam <> "" ->
     e = errorString ("Got error from provider: " +:+
                      Values_Get (r_Form r) errParam +:+ " Desc: " +:+
                      Values_Get (r_Form r) errDescParam) /\
     strings_Contains (Error e) (Values_Get (r_Form r) errParam) = true /\
     strings_Contains (Error e) (Values_Get (r_Form r) errDescParam) = true) /\
    (r_ParseForm r = None ->
     Values_Get (r_Form r) stateParam = "" ->
     e = errors_New "User session error. No state parameter.") /\
    (forall pe, r_ParseForm r = Some pe ->
     e = errorString ("Failed to parse request form. Err: " +:+ Error pe)).
Proof.
  intros He.
  destruct (handler_provider_error c w r He) as (e & Hrej & Hpe & Hns & Hmsg).
  exists e. split; [exact Hrej|]. split.
  { destruct Hrej as [-> _]. reflexivity. }
  split; [|split; [exact Hns|exact Hpe]].
  intros Hp Hs. rewrite (Hmsg Hp Hs). cbn [Error].
  split; [reflexivity|]. split.
  - apply strings_Contains_app.
  - do 2 apply strings_Contains_app_r. apply strings_Contains_suffix.
Qed.

(** C1, amended: every run of the handler sends exactly one outcome
    message on the channel, as its last step, after at most one
    [Exchange] call; the handler keeps no record of a concluded attempt:
    a valid callback calls [Exchange] and then sends, whatever the client
    has been through before, so the requests served one after the other
    make as many sends as there are requests and, when they are all
    valid callbacks, as many exchanges. *)
Theorem callbackHandler_one_send_per_request (c : Client) (rs : list Request) :
  (forall c' w r, exists m,
     h_trace (handler c' w r) = [EvSend m] \/
     exists ctx code,
       h_trace (handler c' w r) = [EvExchange ctx oidcConfig code; EvSend m]) /\
  (forall c' w r, valid_callback expectedState r ->
     exists m,
       h_trace (handler c' w r) =
       [EvExchange (mergeContexts (r_Context r) oidcCtx) oidcConfig
          (Values_Get (r_Form r) codeParam);
        EvSend m]) /\
  List.length (served c rs).1.1 = List.length rs /\
  List.length (List.filter is_Send (served c rs).2) = List.length rs /\
  (List.length (List.filter is_Exchange (served c rs).2) <= List.length rs)%nat /\
  (List.Forall (valid_callback expectedState) rs ->
   List.length (List.filter is_Exchange (served c rs).2) = List.length rs).
Proof.
  split; [exact handler_trace|]. split; [exact handler_valid_trace|].
  destruct (serve_counts rs c) as (H1 & H2 & H3).
  split; [exact H1|]. split; [exact H2|]. split; [exact H3|].
  exact (serve_exchanges rs c).
Qed.

End AnyResponders.

Lemma default_response (oidcCtx : Context) (c : Client) (oidcConfig : Config)
    (expectedState : string) (w : ResponseWriter) (r : Request) :
  h_response (callbackHandler Client_Exchange defaultResponders oidcCtx c
                oidcConfig expectedState w r)
  = OKCallbackResponse w r.
Proof.
  unfold callbackHandler.
  destruct (r_ParseForm r); [reflexivity|].
  destruct (parseCallbackRequest (r_Form r)) as [[code state]|e]; [|reflexivity].
  destruct (negb _); [reflexivity|].
  destruct (Client_Exchange _ _ _ _) as [[tk|e] c']; reflexivity.
Qed.

End Handler.

(** C10: with the default responders the response to a callback request
    has status 200 and the one fixed body; any two runs of the handler,
    whatever their requests, clients, exchange results and expected states
    (so whether they deliver a credential or an error, and whichever
    error), write the same response. *)
Theorem default_response_independent_of_outcome
    {Client1 Client2 : Type}
    (Exchange1 : Client1 -> Context -> Config -> string -> result Token * Client1)
    (Exchange2 : Client2 -> Context -> Config -> string -> result Token * Client2)
    (ctx1 ctx2 : Context) (c1 : Client1) (c2 : Client2) (cfg1 cfg2 : Config)
    (state1 state2 : string) (r1 r2 : Request) :
  let h1 := callbackHandler Exchange1 defaultResponders ctx1 c1 cfg1 state1
              newResponseWriter r1 in
  let h2 := callbackHandler Exchange2 defaultResponders ctx2 c2 cfg2 state2
              newResponseWriter r2 in
  h_response h1 = h_response h2 /\
  rw_status (h_response h1) = Some 200%Z /\
  rw_body (h_response h1) =
    "OIDC authentication flow is completed. You can close browser tab.".
Proof.
  intros h1 h2. subst h1 h2. rewrite !default_response.
  repeat split; reflexivity.
Qed.

(** ** The handler on the single-use-code provider *)

(** C1 as stated fails: the handler that has served one valid callback
    and sent the credential serves a second valid callback for the same
    attempt by calling [Exchange] again and sending a second outcome. *)
Lemma callbackHandler_single_outcome_counterexample :
  let h1 := fixtures.attempt [] fixtures.validCallback in
  let h2 := fixtures.attempt (h_client h1) fixtures.validCallback in
  h_trace h1 =
    [EvExchange [(HTTPClientCtxKey, None)] fixtures.cfg "c0de";
     EvSend {| token := Some (fixtures.tokenWith "r1"); err := None |}] /\
  h_trace h2 =
    [EvExchange [(HTTPClientCtxKey, None)] fixtures.cfg "c0de";
     EvSend {| token := None;
               err := Some (errorString "invalid_grant: code already redeemed") |}] /\
  ~ (List.filter is_Send (h_trace h2) = [] /\
     List.filter is_Exchange (h_trace h2) = []) /\
  List.length
    (List.filter is_Send
       (serve fixtures.provider_Exchange defaultResponders context_Background
          [] fixtures.cfg "A" [fixtures.validCallback; fixtures.validCallback]).2)
  = 2%nat.
Proof.
  cbv zeta. split; [vm_compute; reflexivity|]. split; [vm_compute; reflexivity|].
  split; [|vm_compute; reflexivity].
  intros [H _]. vm_compute in H. discriminate H.
Qed.

(** C2 as stated fails: a request with [error] and [error_description]
    but no [state] gets the session error, which contains neither value. *)
Lemma callbackHandler_provider_error_counterexample :
  let r := fixtures.providerErrorWithoutState in
  Values_Get (r_Form r) errParam = "access_denied" /\
  Values_Get (r_Form r) errDescParam = "user cancelled" /\
  h_trace (fixtures.attempt [] r) =
    [EvSend {| token := None;
               err := Some (errors_New "User session error. No state parameter.") |}] /\
  strings_Contains "User session error. No state parameter." "access_denied"
    = false /\
  strings_Contains "User session error. No state parameter." "user cancelled"
    = false.
Proof. cbv zeta. repeat split; vm_compute; reflexivity. Qed.

Lemma callbackHandler_provider_error_witness :
  let r := fixtures.providerErrorWithState in
  let r0 := fixtures.providerErrorWithoutState in
  Values_Get (r_Form r) errParam <> "" /\
  Values_Get (r_Form r0) errParam <> "" /\
  (r_ParseForm r = None /\ Values_Get (r_Form r) stateParam <> "") /\
  (r_ParseForm r0 = None /\ Values_Get (r_Form r0) stateParam = "") /\
  (exists e,
     rejected [] (fixtures.attempt [] r) e /\
     e = errorString
           "Got error from provider: access_denied Desc: user cancelled" /\
     strings_Contains (Error e) "access_denied" = true /\
     strings_Contains (Error e) "user cancelled" = true) /\
  rejected [] (fixtures.attempt [] r0)
    (errors_New "User session error. No state parameter.").
Proof.
  cbv zeta.
  assert (He : Values_Get (r_Form fixtures.providerErrorWithState) errParam <> "")
    by (vm_compute; discriminate).
  assert (He0 : Values_Get (r_Form fixtures.providerErrorWithoutState) errParam
                <> "") by (vm_compute; discriminate).
  assert (Hs : Values_Get (r_Form fixtures.providerErrorWithState) stateParam
               <> "") by (vm_compute; discriminate).
  assert (Hs0 : Values_Get (r_Form fixtures.providerErrorWithoutState)
                  stateParam = "") by (vm_compute; reflexivity).
  split; [exact He|]. split; [exact He0|].
  split; [split; [reflexivity|exact Hs]|].
  split; [split; [reflexivity|exact Hs0]|].
  split.
  - destruct (callbackHandler_provider_error fixtures.provider_Exchange
                defaultResponders context_Background fixtures.cfg "A" []
                newResponseWriter fixtures.providerErrorWithState He)
      as (e & Hrej & _ & Hmsg & _).
    destruct (Hmsg eq_refl Hs) as (Ee & C1 & C2).
    exists e. split; [exact Hrej|]. split; [exact Ee|]. split; [exact C1|exact C2].
  - destruct (callbackHandler_provider_error fixtures.provider_Exchange
                defaultResponders context_Background fixtures.cfg "A" []
                newResponseWriter fixtures.providerErrorWithoutState He0)
      as (e & Hrej & _ & _ & Hns & _).
    rewrite <- (Hns eq_refl Hs0). exact Hrej.
Defined.

(** Two valid callbacks for the same attempt, served one after the
    other: both reach the exchange and both send. *)
Lemma callbackHandler_one_send_per_request_witness :
  let rs := [fixtures.validCallback; fixtures.validCallback] in
  let tr := (serve fixtures.provider_Exchange defaultResponders
               context_Background [] fixtures.cfg "A" rs).2 in
  List.Forall (valid_callback "A") rs /\
  List.length (List.filter is_Send tr) = 2%nat /\
  List.length (List.filter is_Exchange tr) = 2%nat.
Proof.
  cbv zeta.
  assert (Hv : valid_callback "A" fixtures.validCallback).
  { repeat split; vm_compute; try reflexivity; discriminate. }
  assert (Hrs : List.Forall (valid_callback "A")
                  [fixtures.validCallback; fixtures.validCallback]).
  { apply List.Forall_cons; [exact Hv|].
    apply List.Forall_cons; [exact Hv|apply List.Forall_nil]. }
  split; [exact Hrs|].
  destruct (callbackHandler_one_send_per_request fixtures.provider_Exchange
              defaultResponders context_Background fixtures.cfg "A" []
              [fixtures.validCallback; fixtures.validCallback])
    as (_ & _ & _ & Hsend & _ & Hex).
  split; [exact Hsend|exact (Hex Hrs)].
Defined.

Example provider_error_message :
  h_trace (fixtures.attempt [] fixtures.providerErrorWithState) =
  [EvSend {| token := None;
             err := Some (errorString
               "Got error from provider: access_denied Desc: user cancelled") |}].
Proof. vm_compute. reflexivity. Qed.

Lemma callbackHandler_state_mismatch_witness :
  let r := fixtures.wrongStateCallback in
  Values_Get (r_Form r) stateParam <> "" /\
  Values_Get (r_Form r) stateParam <> "A" /\
  Values_Get (r_Form r) codeParam <> "" /\
  r_Form r !! errParam = None /\
  exists e,
    rejected [] (fixtures.attempt [] r) e /\
    List.filter is_Exchange (h_trace (fixtures.attempt [] r)) = [] /\
    (r_ParseForm r = None ->
     e = errorString ("Invalid state parameter. Got " +:+
                      Values_Get (r_Form r) stateParam +:+
                      ", expected: " +:+ "A")).
Proof.
  cbv zeta.
  split; [vm_compute; discriminate|]. split; [vm_compute; discriminate|].
  split; [vm_compute; discriminate|]. split; [vm_compute; reflexivity|].
  apply (callbackHandler_state_mismatch fixtures.provider_Exchange
           defaultResponders context_Background fixtures.cfg "A" []
           newResponseWriter fixtures.wrongStateCallback).
  - vm_compute. discriminate.
  - vm_compute. discriminate.
  - vm_compute. discriminate.
  - vm_compute. reflexivity.
Defined.

Example state_mismatch_message :
  h_trace (fixtures.attempt [] fixtures.wrongStateCallback) =
  [EvSend {| token := None;
             err := Some (errorString
               "Invalid state parameter. Got B, expected: A") |}].
Proof. vm_compute. reflexivity. Qed.

End CallbackSpec.

(** * Further properties of the token sources *)
Module TokenSourceExtra.
Import oidc.

Lemma strings_Contains_prefix (s t : string) :
  strings_Contains (s +:+ t) s = true.
Proof. apply CallbackSpec.strings_Contains_here, CallbackSpec.prefix_app. Qed.

Lemma strings_Contains_refl (s : string) : strings_Contains s s = true.
Proof.
  apply (CallbackSpec.strings_Contains_suffix EmptyString s).
Qed.

Lemma strings_Join_contains (elems : list string) (sep x : string) :
  In x elems -> strings_Contains (strings_Join elems sep) x = true.
Proof.
  induction elems as [|y rest IH]; [intros []|].
  intros [-> | Hin].
  - destruct rest as [|z rest']; cbn [strings_Join].
    + apply strings_Contains_refl.
    + apply strings_Contains_prefix.
  - destruct rest as [|z rest']; [destruct Hin|].
    change (strings_Join (y :: z :: rest') sep)
      with (y +:+ sep +:+ strings_Join (z :: rest') sep).
    do 2 apply CallbackSpec.strings_Contains_app_r. apply IH. exact Hin.
Qed.

Section Refresher.
Context {Client : Type}.
Variable Client_token :
  Client -> Context -> string -> string -> Values -> result Token * Client.

Local Abbreviation OIDCToken := (TokenRefresher_OIDCToken Client_token).
Local Abbreviation calls := (TokenRefresher_calls Client_token).
Local Abbreviation endpoint tf :=
  (Client_token (tf_client tf) (tf_ctx tf) (ClientID (tf_cfg tf))
     (ClientSecret (tf_cfg tf)) (refreshForm tf)).

Lemma refreshForm_lookup (tf : TokenRefresher Client) (k : string) :
  refreshForm tf !! k =
  if String.eqb k "grant_type" then Some ["refresh_token"]
  else if String.eqb k "refresh_token" then Some [tf_refreshToken tf]
  else if String.eqb k "scope" then
    match Scopes (tf_cfg tf) with
    | [] => None
    | _ :: _ => Some [strings_Join (Scopes (tf_cfg tf)) " "]
    end
  else None.
Proof.
  unfold refreshForm, Values_Set, GrantTypeRefreshToken.
  destruct (Scopes (tf_cfg tf)) as [|sc scs]; cbn [List.length Nat.ltb Nat.leb];
    destruct (String.eqb_spec k "grant_type") as [->|H1];
    try (rewrite ?lookup_insert_ne by discriminate;
         rewrite lookup_insert_eq; reflexivity);
    destruct (String.eqb_spec k "refresh_token") as [->|H2];
    try (rewrite ?lookup_insert_ne by discriminate;
         rewrite lookup_insert_eq; reflexivity);
    destruct (String.eqb_spec k "scope") as [->|H3];
    try (rewrite ?lookup_insert_ne by discriminate;
         rewrite ?lookup_insert_eq; try reflexivity; apply lookup_empty);
    rewrite !lookup_insert_ne by congruence; apply lookup_empty.
Qed.

(** X1: the refresh request has the grant type [refresh_token], the held
    refresh token, a [scope] that is the configured scopes joined by one
    space exactly when some scope is configured, and no other key. *)
Theorem refreshForm_contents (tf : TokenRefresher Client) (k : string) :
  refreshForm tf !! k =
  if String.eqb k "grant_type" then Some ["refresh_token"]
  else if String.eqb k "refresh_token" then Some [tf_refreshToken tf]
  else if String.eqb k "scope" then
    match Scopes (tf_cfg tf) with
    | [] => None
    | _ :: _ => Some [strings_Join (Scopes (tf_cfg tf)) " "]
    end
  else None.
Proof. exact (refreshForm_lookup tf k). Qed.

(** X2: every configured scope occurs in the [scope] value of the
    refresh request. *)
Theorem refreshForm_mentions_scope (tf : TokenRefresher Client) (sc : string) :
  In sc (Scopes (tf_cfg tf)) ->
  exists v, refreshForm tf !! "scope" = Some [v] /\
            strings_Contains v sc = true.
Proof.
  intros Hin. rewrite refreshForm_lookup. cbn.
  destruct (Scopes (tf_cfg tf)) as [|x xs] eqn:E; [destruct Hin|].
  eexists. split; [reflexivity|]. apply strings_Join_contains. exact Hin.
Qed.

(** X3: when the token endpoint rejects the request, the call returns
    that error and no token after its one request, the held refresh token
    is kept, and the next call sends the same refresh token again. *)
Theorem TokenRefresher_endpoint_error (tf : TokenRefresher Client)
    (e : error) (client' : Client) :
  tf_refreshToken tf <> "" ->
  endpoint tf = (Err e, client') ->
  ret_token (OIDCToken tf) = None /\
  ret_err (OIDCToken tf) = Some e /\
  sends_refresh_token (OIDCToken tf) (tf_refreshToken tf) /\
  tf_refreshToken (ret_self (OIDCToken tf)) = tf_refreshToken tf /\
  tf_client (ret_self (OIDCToken tf)) = client' /\
  sends_refresh_token (OIDCToken (ret_self (OIDCToken tf))) (tf_refreshToken tf).
Proof.
  intros Hheld Hcall.
  rewrite (TokenSourceSpec.OIDCToken_held Client_token tf Hheld), Hcall.
  cbn [ret_token ret_err ret_self ret_trace tf_refreshToken tf_client].
  split; [reflexivity|]. split; [reflexivity|]. split.
  { do 4 eexists. split; [reflexivity|].
    apply TokenSourceSpec.refreshForm_refresh_token. }
  split; [reflexivity|]. split; [reflexivity|].
  set (tf1 := {| tf_ctx := tf_ctx tf; tf_refreshToken := tf_refreshToken tf;
                 tf_client := client'; tf_cfg := tf_cfg tf |}).
  rewrite (TokenSourceSpec.OIDCToken_held Client_token tf1 Hheld).
  destruct (endpoint tf1) as [[tk2|e2] client2]; cbn [ret_trace];
    do 4 eexists; (split; [reflexivity|]);
    apply (TokenSourceSpec.refreshForm_refresh_token tf1).
Qed.

Lemma OIDCToken_keeps (tf : TokenRefresher Client) :
  tf_ctx (ret_self (OIDCToken tf)) = tf_ctx tf /\
  tf_cfg (ret_self (OIDCToken tf)) = tf_cfg tf.
Proof.
  unfold TokenRefresher_OIDCToken.
  destruct (String.eqb _ _); [split; reflexivity|].
  destruct (endpoint tf) as [[tk|e] client']; split; reflexivity.
Qed.

(** X4: however many calls are made and whatever the token endpoint
    answers, the refresher's context and configuration stay what they
    were; only the refresh token and the client move. *)
Theorem TokenRefresher_keeps_ctx_cfg (n : nat) (tf : TokenRefresher Client) :
  tf_ctx (fst (calls n tf)) = tf_ctx tf /\
  tf_cfg (fst (calls n tf)) = tf_cfg tf /\
  List.length (snd (calls n tf)) = n.
Proof.
  revert tf. induction n as [|n IH]; intros tf; [repeat split|].
  cbn [TokenRefresher_calls].
  specialize (IH (ret_self (OIDCToken tf))).
  destruct (calls n (ret_self (OIDCToken tf))) as [tf' rs].
  cbn [fst snd List.length] in *.
  destruct (OIDCToken_keeps tf) as [Hc Hg].
  destruct IH as (-> & -> & ->). auto.
Qed.

(** A call makes no token request when the held refresh token is
    empty and exactly one otherwise, with the refresher's context, the
    configured client id and secret and the refresh form, whether the
    endpoint then accepts or rejects it. *)
Lemma TokenRefresher_one_request (tf : TokenRefresher Client) :
  ret_trace (OIDCToken tf) =
  if String.eqb (tf_refreshToken tf) ""
  then []
  else [EvTokenRequest (tf_ctx tf) (ClientID (tf_cfg tf))
          (ClientSecret (tf_cfg tf)) (refreshForm tf)].
Proof.
  unfold TokenRefresher_OIDCToken.
  destruct (String.eqb _ _); [reflexivity|].
  destruct (endpoint tf) as [[tk|e] client']; reflexivity.
Qed.

Lemma OIDCToken_xor (tf : TokenRefresher Client) :
  (exists tk, ret_token (OIDCToken tf) = Some tk /\ ret_err (OIDCToken tf) = None) \/
  (exists e, ret_token (OIDCToken tf) = None /\ ret_err (OIDCToken tf) = Some e).
Proof.
  unfold TokenRefresher_OIDCToken.
  destruct (String.eqb _ _); [right; eexists; split; reflexivity|].
  destruct (endpoint tf) as [[tk|e] client'];
    [left|right]; eexists; split; reflexivity.
Qed.

(** X5: a call returns either a token and a nil error or no token and
    an error, never both and never neither. *)
Theorem TokenRefresher_token_xor_error (tf : TokenRefresher Client) :
  (exists tk, ret_token (OIDCToken tf) = Some tk /\ ret_err (OIDCToken tf) = None) \/
  (exists e, ret_token (OIDCToken tf) = None /\ ret_err (OIDCToken tf) = Some e).
Proof. exact (OIDCToken_xor tf). Qed.

End Refresher.

Section Reuse.
Context {VerifierT S : Type} `{src : TokenSource VerifierT S}.
Variable Token_IsValid : Token -> Context -> option VerifierT -> option error.

Local Abbreviation get := (ReuseTokenSource_OIDCToken Token_IsValid).
Local Abbreviation reset := ReuseTokenSource_reset.

(** Every source either holds a token its verifier accepts or misses. *)
Lemma cached_or_miss (s : ReuseTokenSource S) :
  (exists t, cached_valid Token_IsValid s t) \/ cache_miss Token_IsValid s.
Proof.
  unfold cached_valid, cache_miss. destruct (rs_t s) as [t|]; [|auto].
  destruct (Token_IsValid t (rs_ctx s) (Verifier (rs_new s))) as [e|] eqn:Hv;
    [right; right; eauto | left; eauto].
Qed.

(** X6: on a cache miss of a source with a debug logger, when the
    wrapped source returns without an error, the call returns the wrapped
    source's token with a nil error, caches it, keeps the wrapped source
    as its one call left it, and has made exactly that one delegated
    call. *)
Theorem ReuseTokenSource_refresh (s : ReuseTokenSource S) (lg : Logger)
    (inner : outcome S) :
  cache_miss Token_IsValid s ->
  rs_debugLogger s = Some lg ->
  OIDCToken (rs_new s) = Returned inner ->
  ret_err inner = None ->
  exists r,
    get s = Returned r /\
    ret_token r = ret_token inner /\
    ret_err r = None /\
    rs_t (ret_self r) = ret_token inner /\
    rs_new (ret_self r) = ret_self inner /\
    rs_ctx (ret_self r) = rs_ctx s /\
    exists before,
      ret_trace r = before ++ EvNewOIDCToken :: ret_trace inner /\
      List.filter is_NewOIDCToken before = [].
Proof.
  intros Hmiss Hl Hi Hok.
  destruct (TokenSourceSpec.get_miss Token_IsValid s lg Hmiss Hl)
    as (before & -> & _ & Hnew & _).
  rewrite (TokenSourceSpec.obtainNew_ok s before inner Hi Hok).
  eexists. split; [reflexivity|]. cbn.
  repeat split; try reflexivity. exists before. split; [reflexivity|exact Hnew].
Qed.

(** X7: after a refresh by a source with a debug logger that returned
    token [tk], if the validity check of [tk] against the verifier of the
    wrapped source as the refresh left it passes, the next call returns
    [tk] from the cache: no error, one validity check, no delegated call,
    the source unchanged. *)
Theorem ReuseTokenSource_reuse_after_refresh (s : ReuseTokenSource S)
    (lg : Logger) (inner : outcome S) (tk : Token) :
  cache_miss Token_IsValid s ->
  rs_debugLogger s = Some lg ->
  OIDCToken (rs_new s) = Returned inner ->
  ret_token inner = Some tk ->
  ret_err inner = None ->
  Token_IsValid tk (rs_ctx s) (Verifier (ret_self inner)) = None ->
  exists r1,
    get s = Returned r1 /\
    rs_t (ret_self r1) = Some tk /\
    get (ret_self r1) =
    Returned (mkOutcome (Some tk) None (ret_self r1) [EvIsValid tk]).
Proof.
  intros Hmiss Hl Hi Htk Hok Hvalid.
  destruct (TokenSourceSpec.get_miss Token_IsValid s lg Hmiss Hl)
    as (before & -> & _).
  rewrite (TokenSourceSpec.obtainNew_ok s before inner Hi Hok), Htk.
  eexists. split; [reflexivity|]. cbn [ret_self rs_t].
  split; [reflexivity|].
  apply TokenSourceSpec.get_hit. split; [reflexivity|exact Hvalid].
Qed.

(** X8: for a source with a debug logger, when the first refresh after
    [reset] fails in the wrapped source, the error is returned, the cache
    stays empty, and the next call goes to the wrapped source again
    without a validity check. *)
Theorem ReuseTokenSource_reset_failure_retries (s : ReuseTokenSource S)
    (lg : Logger) (inner inner2 : outcome S) (e : error) :
  rs_debugLogger s = Some lg ->
  OIDCToken (rs_new s) = Returned inner ->
  ret_err inner = Some e ->
  OIDCToken (ret_self inner) = Returned inner2 ->
  exists r1 r2,
    get (reset s) = Returned r1 /\
    ret_err r1 = Some e /\ ret_token r1 = None /\
    rs_t (ret_self r1) = None /\
    get (ret_self r1) = Returned r2 /\
    exists before,
      ret_trace r2 = before ++ EvNewOIDCToken :: ret_trace inner2 /\
      List.filter is_IsValid before = [].
Proof.
  intros Hl Hi Herr Hi2.
  assert (Hmiss : cache_miss Token_IsValid (reset s)) by (left; reflexivity).
  destruct (TokenSourceSpec.get_miss Token_IsValid (reset s) lg Hmiss Hl)
    as (before & -> & _).
  rewrite (TokenSourceSpec.obtainNew_error (reset s) before inner e Hi Herr).
  cbn [ReuseTokenSource_reset rs_ctx rs_t rs_new rs_debugLogger].
  set (s1 := {| rs_ctx := rs_ctx s; rs_new := ret_self inner; rs_t := None;
                rs_debugLogger := rs_debugLogger s |}).
  assert (Hmiss1 : cache_miss Token_IsValid s1) by (left; reflexivity).
  destruct (TokenSourceSpec.get_miss Token_IsValid s1 lg Hmiss1 Hl)
    as (before1 & Hget & _ & _ & _ & Hnone).
  destruct (TokenSourceSpec.obtainNew_Returned s1 before1 inner2 Hi2)
    as (r2 & Hr2 & Htr & _).
  eexists. exists r2. split; [reflexivity|]. cbn [ret_err ret_token ret_self rs_t].
  split; [reflexivity|]. split; [reflexivity|]. split; [reflexivity|].
  fold s1. split; [rewrite Hget; exact Hr2|].
  exists before1. split; [exact Htr|]. apply Hnone. reflexivity.
Qed.

(** X9: a call is a hit, which returns the cached token after one
    validity check and leaves everything as it was; or a miss of a source
    without a debug logger, which panics; or a miss of a source with one,
    which writes exactly one debug line after at most one validity check
    and then calls the wrapped source exactly once, panicking if that
    call panics and otherwise keeping the wrapped source as the call left
    it. *)
Theorem ReuseTokenSource_hit_or_miss (s : ReuseTokenSource S) :
  (exists t, cached_valid Token_IsValid s t /\
             get s = Returned (mkOutcome (Some t) None s [EvIsValid t])) \/
  (cache_miss Token_IsValid s /\ rs_debugLogger s = None /\
   get s = Panic nilPointerDereference) \/
  (cache_miss Token_IsValid s /\ rs_debugLogger s <> None /\
   match OIDCToken (rs_new s) with
   | Panic e => get s = Panic e
   | Returned inner =>
       exists r before,
         get s = Returned r /\
         ret_trace r = before ++ EvNewOIDCToken :: ret_trace inner /\
         List.length (List.filter is_DebugLog before) = 1%nat /\
         List.filter is_NewOIDCToken before = [] /\
         (List.length (List.filter is_IsValid before) <= 1)%nat /\
         rs_new (ret_self r) = ret_self inner
   end).
Proof.
  destruct (cached_or_miss s) as [[t Hc] | Hmiss].
  { left. exists t. split; [exact Hc|]. apply TokenSourceSpec.get_hit. exact Hc. }
  right. destruct (rs_debugLogger s) as [lg|] eqn:Hl.
  - right. split; [exact Hmiss|]. split; [discriminate|].
    destruct (TokenSourceSpec.get_miss Token_IsValid s lg Hmiss Hl)
      as (before & -> & H1 & H2 & H3 & _).
    destruct (OIDCToken (rs_new s)) as [inner|e] eqn:Hi.
    + destruct (TokenSourceSpec.obtainNew_Returned s before inner Hi)
        as (r & -> & Htr & _ & _ & _ & Hnew & _).
      exists r, before. auto 10.
    + unfold obtainNew. rewrite Hi. reflexivity.
  - left. split; [exact Hmiss|]. split; [reflexivity|].
    apply TokenSourceSpec.get_miss_nil; assumption.
Qed.

(** X10: when a source with a debug logger finds its cached token
    rejected and the wrapped source returns, the debug line written
    before the refresh carries the reason of the rejection. *)
Theorem ReuseTokenSource_logs_cause (s : ReuseTokenSource S) (lg : Logger)
    (inner : outcome S) (t : Token) (e : error) :
  rs_t s = Some t ->
  Token_IsValid t (rs_ctx s) (Verifier (rs_new s)) = Some e ->
  rs_debugLogger s = Some lg ->
  OIDCToken (rs_new s) = Returned inner ->
  exists r line,
    get s = Returned r /\
    In (EvDebugLog line) (ret_trace r) /\
    strings_Contains line (Error e) = true.
Proof.
  intros Ht Hv Hl Hi.
  unfold ReuseTokenSource_OIDCToken, ReuseTokenSource_Verifier.
  rewrite Ht, Hv, Hl. cbn [Logger_Print].
  destruct (TokenSourceSpec.obtainNew_Returned s
              [EvIsValid t;
               EvDebugLog
                 ("reuseTokenSource: Token not valid. Obtaining new one. Cause: "
                  +:+ Error e +:+ newline)] inner Hi)
    as (r & -> & Htr & _).
  exists r. eexists. split; [reflexivity|]. split.
  - rewrite Htr. right. left. reflexivity.
  - apply CallbackSpec.strings_Contains_app.
Qed.

(** X11: src/token_src.go and the later [OIDCToken] agree on a source
    with a debug logger: with [Token.Valid] the boolean reading of
    [Token.IsValid], both panic with the wrapped source, or both return
    the same token and error, leave the same source and make the same
    delegated calls. *)
Theorem ReuseTokenSource_versions_agree
    (Token_Valid : Token -> Context -> option VerifierT -> bool)
    (s : ReuseTokenSource S) (lg : Logger) :
  (forall t ctx v, Token_Valid t ctx v = true <-> Token_IsValid t ctx v = None) ->
  rs_debugLogger s = Some lg ->
  match ReuseTokenSource_OIDCToken_token_src Token_Valid s, get s with
  | Returned r0, Returned r =>
      ret_token r0 = ret_token r /\
      ret_err r0 = ret_err r /\
      ret_self r0 = ret_self r /\
      List.filter is_NewOIDCToken (ret_trace r0) =
      List.filter is_NewOIDCToken (ret_trace r)
  | Panic e0, Panic e => e0 = e
  | _, _ => False
  end.
Proof.
  exact (TokenSourceSpec.ReuseTokenSource_OIDCToken_token_src_agrees
           Token_IsValid Token_Valid s lg).
Qed.

End Reuse.

Section Composed.
Context {Client VerifierT : Type}.
Variable Client_token :
  Client -> Context -> string -> string -> Values -> result Token * Client.
Variable Client_Verifier : Client -> VerificationConfig -> option VerifierT.
Variable Token_IsValid : Token -> Context -> option VerifierT -> option error.

Local Abbreviation refresher :=
  (TokenRefresher_TokenSource Client_token Client_Verifier).
Local Abbreviation static :=
  (staticTokenSource_TokenSource (VerifierT:=VerifierT)).
Local Abbreviation endpoint tf :=
  (Client_token (tf_client tf) (tf_ctx tf) (ClientID (tf_cfg tf))
     (ClientSecret (tf_cfg tf)) (refreshForm tf)).

(** X12: a reusing source with a debug logger over a static source
    never panics, never returns an error and never changes the static
    source; its validity check is made against the nil verifier; it
    returns the cached token when that check passes and the static token
    otherwise, and caches what it returns. *)
Theorem ReuseTokenSource_over_static (s : ReuseTokenSource staticTokenSource)
    (lg : Logger) :
  rs_debugLogger s = Some lg ->
  exists r,
    ReuseTokenSource_OIDCToken Token_IsValid (src:=static) s = Returned r /\
    ret_err r = None /\
    rs_new (ret_self r) = rs_new s /\
    ret_token r =
      match rs_t s with
      | Some t =>
          match Token_IsValid t (rs_ctx s) None with
          | None => Some t
          | Some _ => st_t (rs_new s)
          end
      | None => st_t (rs_new s)
      end /\
    rs_t (ret_self r) = ret_token r.
Proof.
  intros Hl.
  unfold ReuseTokenSource_OIDCToken, ReuseTokenSource_Verifier, obtainNew.
  rewrite Hl.
  cbn [Verifier OIDCToken static staticTokenSource_TokenSource Logger_Print].
  unfold staticTokenSource_Verifier, staticTokenSource_OIDCToken.
  destruct (rs_t s) as [t|] eqn:Ht.
  - destruct (Token_IsValid t (rs_ctx s) None);
      eexists; (split; [reflexivity|]); cbn; repeat split; auto.
  - eexists. split; [reflexivity|]. cbn. repeat split; auto.
Qed.

(** X13: a reusing source with a debug logger over a refresher, on a
    cache miss with a refresh token held and a token endpoint that
    answers with [tk]: the call returns [tk], caches it, leaves the
    refresher holding the refresh token of [tk], and ends with the
    delegated call and its one token request. *)
Theorem ReuseTokenSource_over_refresher
    (s : ReuseTokenSource (TokenRefresher Client)) (lg : Logger)
    (tk : Token) (client' : Client) :
  cache_miss (src:=refresher) Token_IsValid s ->
  rs_debugLogger s = Some lg ->
  tf_refreshToken (rs_new s) <> "" ->
  endpoint (rs_new s) = (Ok tk, client') ->
  exists r,
    ReuseTokenSource_OIDCToken Token_IsValid (src:=refresher) s = Returned r /\
    ret_token r = Some tk /\ ret_err r = None /\
    rs_t (ret_self r) = Some tk /\
    tf_refreshToken (rs_new (ret_self r)) = RefreshToken tk /\
    tf_client (rs_new (ret_self r)) = client' /\
    exists before,
      ret_trace r =
        before ++
        [EvNewOIDCToken;
         EvTokenRequest (tf_ctx (rs_new s)) (ClientID (tf_cfg (rs_new s)))
           (ClientSecret (tf_cfg (rs_new s))) (refreshForm (rs_new s))].
Proof.
  intros Hmiss Hl Hheld Hcall.
  destruct (TokenSourceSpec.get_miss Token_IsValid s lg Hmiss Hl)
    as (before & -> & _).
  unfold obtainNew.
  cbn [OIDCToken refresher TokenRefresher_TokenSource].
  rewrite (TokenSourceSpec.OIDCToken_held Client_token (rs_new s) Hheld), Hcall.
  eexists. split; [reflexivity|]. cbn.
  repeat split; try reflexivity. exists before. reflexivity.
Qed.

(** X14: a reusing source over a refresher returns either a token and a
    nil error or no token and an error, unless it misses the cache with
    a nil debug logger: then, and only then, it panics. *)
Theorem ReuseTokenSource_refresher_token_xor_error
    (s : ReuseTokenSource (TokenRefresher Client)) :
  let r := ReuseTokenSource_OIDCToken Token_IsValid (src:=refresher) s in
  (exists o tk, r = Returned o /\ ret_token o = Some tk /\ ret_err o = None) \/
  (exists o e, r = Returned o /\ ret_token o = None /\ ret_err o = Some e) \/
  (cache_miss (src:=refresher) Token_IsValid s /\ rs_debugLogger s = None /\
   r = Panic nilPointerDereference).
Proof.
  intros r. subst r.
  destruct (cached_or_miss Token_IsValid (src:=refresher) s)
    as [[t Hc] | Hmiss].
  { left. rewrite (TokenSourceSpec.get_hit Token_IsValid s t Hc).
    do 2 eexists. split; [reflexivity|]. split; reflexivity. }
  destruct (rs_debugLogger s) as [lg|] eqn:Hl.
  - destruct (TokenSourceSpec.get_miss Token_IsValid s lg Hmiss Hl)
      as (before & -> & _).
    unfold obtainNew. cbn [OIDCToken refresher TokenRefresher_TokenSource].
    destruct (OIDCToken_xor Client_token (rs_new s))
      as [(tk & Ht & He) | (e1 & Ht & He)]; rewrite He.
    + left. do 2 eexists. split; [reflexivity|]. cbn. split; [exact Ht|reflexivity].
    + right. left. do 2 eexists. split; [reflexivity|]. split; reflexivity.
  - right. right. split; [exact Hmiss|]. split; [reflexivity|].
    apply TokenSourceSpec.get_miss_nil; assumption.
Qed.

End Composed.

(** ** The further properties on the rotating provider *)
Import fixtures.

Lemma refreshForm_mentions_scope_witness :
  In "email" (Scopes (tf_cfg (held "r1"))) /\
  exists v, refreshForm (held "r1") !! "scope" = Some [v] /\
            strings_Contains v "email" = true.
Proof.
  assert (H : In "email" (Scopes (tf_cfg (held "r1")))) by (right; left; reflexivity).
  split; [exact H|].
  exact (refreshForm_mentions_scope (held "r1") "email" H).
Defined.

Lemma TokenRefresher_endpoint_error_witness :
  let tf := held "revoked" in
  let r := TokenRefresher_OIDCToken provider_token tf in
  tf_refreshToken tf <> "" /\
  ret_token r = None /\
  ret_err r = Some (errorString "invalid_grant") /\
  sends_refresh_token r "revoked" /\
  tf_refreshToken (ret_self r) = "revoked" /\
  tf_client (ret_self r) = 1%nat /\
  sends_refresh_token (TokenRefresher_OIDCToken provider_token (ret_self r))
    "revoked".
Proof.
  cbv zeta. split; [discriminate|].
  apply (TokenRefresher_endpoint_error provider_token (held "revoked")
           (errorString "invalid_grant") 1%nat).
  - discriminate.
  - vm_compute. reflexivity.
Defined.

Lemma ReuseTokenSource_refresh_witness :
  let s := reusing None "r1" in
  let inner := TokenRefresher_OIDCToken provider_token (held "r1") in
  cache_miss idToken_IsValid s /\
  rs_debugLogger s = Some (log_New ioutil_Discard "" 0) /\
  ret_err inner = None /\
  exists r,
    ReuseTokenSource_OIDCToken idToken_IsValid s = Returned r /\
    ret_token r = ret_token inner /\
    ret_err r = None /\
    rs_t (ret_self r) = ret_token inner /\
    rs_new (ret_self r) = ret_self inner /\
    rs_ctx (ret_self r) = rs_ctx s /\
    exists before,
      ret_trace r = before ++ EvNewOIDCToken :: ret_trace inner /\
      List.filter is_NewOIDCToken before = [].
Proof.
  cbv zeta.
  assert (H : cache_miss idToken_IsValid (reusing None "r1")) by (left; reflexivity).
  split; [exact H|]. split; [reflexivity|]. split; [vm_compute; reflexivity|].
  apply (ReuseTokenSource_refresh idToken_IsValid (reusing None "r1")
           (log_New ioutil_Discard "" 0)
           (TokenRefresher_OIDCToken provider_token (held "r1")) H).
  - reflexivity.
  - reflexivity.
  - vm_compute. reflexivity.
Defined.

Lemma ReuseTokenSource_reuse_after_refresh_witness :
  let s := reusing (Some staleToken) "r1" in
  let inner := TokenRefresher_OIDCToken provider_token (held "r1") in
  cache_miss idToken_IsValid s /\
  ret_token inner = Some (tokenWith "r2") /\
  exists r1,
    ReuseTokenSource_OIDCToken idToken_IsValid s = Returned r1 /\
    rs_t (ret_self r1) = Some (tokenWith "r2") /\
    ReuseTokenSource_OIDCToken idToken_IsValid (ret_self r1) =
    Returned (mkOutcome (Some (tokenWith "r2")) None (ret_self r1)
                [EvIsValid (tokenWith "r2")]).
Proof.
  cbv zeta.
  assert (H : cache_miss idToken_IsValid (reusing (Some staleToken) "r1")).
  { right. exists staleToken, (errorString "no ID token").
    split; vm_compute; reflexivity. }
  split; [exact H|]. split; [vm_compute; reflexivity|].
  apply (ReuseTokenSource_reuse_after_refresh idToken_IsValid
           (reusing (Some staleToken) "r1") (log_New ioutil_Discard "" 0)
           (TokenRefresher_OIDCToken provider_token (held "r1"))
           (tokenWith "r2") H).
  - reflexivity.
  - reflexivity.
  - vm_compute. reflexivity.
  - vm_compute. reflexivity.
  - vm_compute. reflexivity.
Defined.

Lemma ReuseTokenSource_reset_failure_retries_witness :
  let s := reusing (Some (tokenWith "r1")) "revoked" in
  let inner := TokenRefresher_OIDCToken provider_token (held "revoked") in
  let inner2 := TokenRefresher_OIDCToken provider_token (ret_self inner) in
  let e := errorString "invalid_grant" in
  ret_err inner = Some e /\
  exists r1 r2,
    ReuseTokenSource_OIDCToken idToken_IsValid (ReuseTokenSource_reset s)
      = Returned r1 /\
    ret_err r1 = Some e /\ ret_token r1 = None /\
    rs_t (ret_self r1) = None /\
    ReuseTokenSource_OIDCToken idToken_IsValid (ret_self r1) = Returned r2 /\
    exists before,
      ret_trace r2 = before ++ EvNewOIDCToken :: ret_trace inner2 /\
      List.filter is_IsValid before = [].
Proof.
  cbv zeta. split; [vm_compute; reflexivity|].
  apply (ReuseTokenSource_reset_failure_retries idToken_IsValid
           (reusing (Some (tokenWith "r1")) "revoked")
           (log_New ioutil_Discard "" 0)
           (TokenRefresher_OIDCToken provider_token (held "revoked"))
           (TokenRefresher_OIDCToken provider_token
              (ret_self (TokenRefresher_OIDCToken provider_token
                           (held "revoked"))))
           (errorString "invalid_grant")).
  - reflexivity.
  - reflexivity.
  - vm_compute. reflexivity.
  - reflexivity.
Defined.

Lemma ReuseTokenSource_logs_cause_witness :
  let s := reusing (Some staleToken) "r1" in
  rs_t s = Some staleToken /\
  idToken_IsValid staleToken (rs_ctx s) (Verifier (rs_new s))
    = Some (errorString "no ID token") /\
  exists r line,
    ReuseTokenSource_OIDCToken idToken_IsValid s = Returned r /\
    In (EvDebugLog line) (ret_trace r) /\
    strings_Contains line "no ID token" = true.
Proof.
  cbv zeta. split; [reflexivity|]. split; [vm_compute; reflexivity|].
  apply (ReuseTokenSource_logs_cause idToken_IsValid
           (reusing (Some staleToken) "r1") (log_New ioutil_Discard "" 0)
           (TokenRefresher_OIDCToken provider_token (held "r1"))
           staleToken (errorString "no ID token")).
  - reflexivity.
  - vm_compute. reflexivity.
  - reflexivity.
  - reflexivity.
Defined.

Lemma idToken_Valid_reads_IsValid (t : Token) (ctx : Context) (v : option string) :
  idToken_Valid t ctx v = true <-> idToken_IsValid t ctx v = None.
Proof.
  unfold idToken_Valid. destruct (idToken_IsValid t ctx v); split;
    intros H; try reflexivity; discriminate H.
Defined.

Lemma ReuseTokenSource_versions_agree_witness :
  let s := reusing (Some staleToken) "r1" in
  rs_debugLogger s = Some (log_New ioutil_Discard "" 0) /\
  match ReuseTokenSource_OIDCToken_token_src idToken_Valid s,
        ReuseTokenSource_OIDCToken idToken_IsValid s with
  | Returned r0, Returned r =>
      ret_token r0 = ret_token r /\
      ret_err r0 = ret_err r /\
      ret_self r0 = ret_self r /\
      List.filter is_NewOIDCToken (ret_trace r0) =
      List.filter is_NewOIDCToken (ret_trace r)
  | Panic e0, Panic e => e0 = e
  | _, _ => False
  end.
Proof.
  cbv zeta. split; [reflexivity|].
  apply (ReuseTokenSource_versions_agree idToken_IsValid idToken_Valid
           (reusing (Some staleToken) "r1") (log_New ioutil_Discard "" 0)).
  - exact idToken_Valid_reads_IsValid.
  - reflexivity.
Defined.

(** Without a debug logger the two versions part on a miss: the earlier
    one refreshes, the later one panics. *)
Example versions_part_without_logger :
  let s := reusingWith None (Some staleToken) "r1" in
  ReuseTokenSource_OIDCToken idToken_IsValid s = Panic nilPointerDereference /\
  match ReuseTokenSource_OIDCToken_token_src idToken_Valid s with
  | Returned r0 => ret_token r0 = Some (tokenWith "r2")
  | Panic _ => False
  end.
Proof. cbv zeta. split; vm_compute; reflexivity. Qed.

Lemma ReuseTokenSource_over_static_witness :
  let s := reusingStatic (Some staleToken) (Some (tokenWith "r1")) in
  rs_debugLogger s = Some (log_New ioutil_Discard "" 0) /\
  exists r,
    ReuseTokenSource_OIDCToken (src:=staticTokenSource_TokenSource)
      idToken_IsValid s = Returned r /\
    ret_err r = None /\
    rs_new (ret_self r) = rs_new s /\
    ret_token r =
      match rs_t s with
      | Some t =>
          match idToken_IsValid t (rs_ctx s) None with
          | None => Some t
          | Some _ => st_t (rs_new s)
          end
      | None => st_t (rs_new s)
      end /\
    rs_t (ret_self r) = ret_token r.
Proof.
  cbv zeta. split; [reflexivity|].
  apply (ReuseTokenSource_over_static idToken_IsValid
           (reusingStatic (Some staleToken) (Some (tokenWith "r1")))
           (log_New ioutil_Discard "" 0)).
  reflexivity.
Defined.

Lemma ReuseTokenSource_over_refresher_witness :
  let s := reusing (Some staleToken) "r1" in
  cache_miss idToken_IsValid s /\
  tf_refreshToken (rs_new s) <> "" /\
  exists r,
    ReuseTokenSource_OIDCToken idToken_IsValid s = Returned r /\
    ret_token r = Some (tokenWith "r2") /\ ret_err r = None /\
    rs_t (ret_self r) = Some (tokenWith "r2") /\
    tf_refreshToken (rs_new (ret_self r)) = RefreshToken (tokenWith "r2") /\
    tf_client (rs_new (ret_self r)) = 1%nat /\
    exists before,
      ret_trace r =
        before ++
        [EvNewOIDCToken;
         EvTokenRequest (tf_ctx (rs_new s)) (ClientID (tf_cfg (rs_new s)))
           (ClientSecret (tf_cfg (rs_new s))) (refreshForm (rs_new s))].
Proof.
  cbv zeta.
  assert (H : cache_miss idToken_IsValid (reusing (Some staleToken) "r1")).
  { right. exists staleToken, (errorString "no ID token").
    split; vm_compute; reflexivity. }
  split; [exact H|]. split; [discriminate|].
  apply (ReuseTokenSource_over_refresher provider_token provider_Verifier
           idToken_IsValid (reusing (Some staleToken) "r1")
           (log_New ioutil_Discard "" 0) (tokenWith "r2") 1%nat H).
  - reflexivity.
  - discriminate.
  - vm_compute. reflexivity.
Defined.

End TokenSourceExtra.

(** * Further properties of the callback handler *)
Module CallbackExtra.
Import oidc login.

(** X15: in the merged context the HTTP client is the request's own when
    the request carries one, and the flow's otherwise. *)
Theorem mergeContexts_client (originalCtx oidcCtx : Context) :
  Context_Value (mergeContexts originalCtx oidcCtx) HTTPClientCtxKey =
  match Context_Value originalCtx HTTPClientCtxKey with
  | Some customClient => Some customClient
  | None => Context_Value oidcCtx HTTPClientCtxKey
  end.
Proof.
  unfold mergeContexts.
  destruct (Context_Value originalCtx HTTPClientCtxKey) as [x|] eqn:E.
  - exact E.
  - unfold context_WithValue. cbn [Context_Value].
    destruct (decide (HTTPClientCtxKey = HTTPClientCtxKey)); [reflexivity|contradiction].
Qed.

(** X16: every other value of the request's context is kept by the
    merge, and none is taken from the flow's context. *)
Theorem mergeContexts_other_keys (originalCtx oidcCtx : Context) (key : ctxKey) :
  key <> HTTPClientCtxKey ->
  Context_Value (mergeContexts originalCtx oidcCtx) key =
  Context_Value originalCtx key.
Proof.
  intros Hk. unfold mergeContexts.
  destruct (Context_Value originalCtx HTTPClientCtxKey); [reflexivity|].
  unfold context_WithValue. cbn [Context_Value].
  destruct (decide (HTTPClientCtxKey = key)); [congruence|reflexivity].
Qed.

(** X17: [parseCallbackRequest] succeeds exactly when [state] and
    [code] are non-empty and [error] is empty, and it then returns the
    form's [code] and [state]. *)
Theorem parseCallbackRequest_Ok_iff (form : Values) (code state : string) :
  parseCallbackRequest form = Ok (code, state) <->
  Values_Get form stateParam = state /\ state <> "" /\
  Values_Get form errParam = "" /\
  Values_Get form codeParam = code /\ code <> "".
Proof.
  split.
  - intros H. apply CallbackSpec.parseCallbackRequest_Ok in H.
    destruct H as (-> & ? & ? & -> & ?). auto.
  - intros (<- & Hs & He & <- & Hc). unfold parseCallbackRequest.
    apply String.eqb_neq in Hs, Hc. rewrite Hs, He, Hc. reflexivity.
Qed.

(** X18: the result of [parseCallbackRequest] depends only on the first
    values of [state], [error], [error_description] and [code]: further
    values and other parameters change nothing. *)
Theorem parseCallbackRequest_reads_four (form1 form2 : Values) :
  Values_Get form1 stateParam = Values_Get form2 stateParam ->
  Values_Get form1 errParam = Values_Get form2 errParam ->
  Values_Get form1 errDescParam = Values_Get form2 errDescParam ->
  Values_Get form1 codeParam = Values_Get form2 codeParam ->
  parseCallbackRequest form1 = parseCallbackRequest form2.
Proof.
  intros Hs He Hd Hc. unfold parseCallbackRequest.
  rewrite Hs, He, Hd, Hc. reflexivity.
Qed.

Section Handler.
Context {Client : Type}.
Variable Client_Exchange :
  Client -> Context -> Config -> string -> result Token * Client.

Section OneAttempt.
Variable vars : responders.
Variables (oidcCtx : Context) (oidcConfig : Config) (expectedState : string).

Local Abbreviation handler c :=
  (callbackHandler Client_Exchange vars oidcCtx c oidcConfig expectedState).

(** A request the handler takes to the exchange. *)
Lemma valid_parse (r : Request) :
  Values_Get (r_Form r) stateParam <> "" ->
  Values_Get (r_Form r) errParam = "" ->
  Values_Get (r_Form r) codeParam <> "" ->
  parseCallbackRequest (r_Form r) =
  Ok (Values_Get (r_Form r) codeParam, Values_Get (r_Form r) stateParam).
Proof.
  intros Hs He Hc. unfold parseCallbackRequest.
  apply String.eqb_neq in Hs, Hc. rewrite Hs, He, Hc. reflexivity.
Qed.

(** X19: a callback whose form parsed, with the expected non-empty
    [state], a non-empty [code] and no [error], makes exactly one
    [Exchange] call, with the merged context, the configuration and the
    form's [code]; it then sends the token of the exchange, answering
    through [OKCallbackResponse], or the error of the exchange as it is,
    answering through [ErrCallbackResponse]. *)
Theorem callbackHandler_valid_callback (c : Client) (w : ResponseWriter)
    (r : Request) :
  r_ParseForm r = None ->
  Values_Get (r_Form r) stateParam <> "" ->
  Values_Get (r_Form r) stateParam = expectedState ->
  Values_Get (r_Form r) errParam = "" ->
  Values_Get (r_Form r) codeParam <> "" ->
  let ctx := mergeContexts (r_Context r) oidcCtx in
  let code := Values_Get (r_Form r) codeParam in
  handler c w r =
  match Client_Exchange c ctx oidcConfig code with
  | (Ok oidcToken, c') =>
      mkHandled (var_OKCallbackResponse vars w r) c'
        [EvExchange ctx oidcConfig code;
         EvSend {| token := Some oidcToken; err := None |}]
  | (Err e, c') =>
      mkHandled (var_ErrCallbackResponse vars w r e) c'
        [EvExchange ctx oidcConfig code;
         EvSend {| token := None; err := Some e |}]
  end.
Proof.
  intros Hp Hs Hm He Hc ctx code. subst ctx code.
  unfold callbackHandler. rewrite Hp, (valid_parse r Hs He Hc).
  apply String.eqb_eq in Hm. rewrite Hm. cbn [negb].
  destruct (Client_Exchange _ _ _ _) as [[tk|e] c']; reflexivity.
Qed.

(** X20: the handler calls [Exchange] exactly when the form parsed,
    [state] is non-empty and equals the expected state, [error] is empty
    and [code] is non-empty; in every other case the client is left
    untouched. *)
Theorem callbackHandler_exchanges_iff (c : Client) (w : ResponseWriter)
    (r : Request) :
  (List.filter is_Exchange (h_trace (handler c w r)) <> [] <->
   r_ParseForm r = None /\
   Values_Get (r_Form r) stateParam <> "" /\
   Values_Get (r_Form r) stateParam = expectedState /\
   Values_Get (r_Form r) errParam = "" /\
   Values_Get (r_Form r) codeParam <> "") /\
  (List.filter is_Exchange (h_trace (handler c w r)) = [] ->
   h_client (handler c w r) = c).
Proof.
  unfold callbackHandler.
  destruct (r_ParseForm r) as [pe|].
  { split; [split|reflexivity]; [intros H; contradiction H; reflexivity|].
    intros (H & _). discriminate H. }
  destruct (parseCallbackRequest (r_Form r)) as [[code state]|e] eqn:P.
  - apply CallbackSpec.parseCallbackRequest_Ok in P as (-> & Hs & He & -> & Hc).
    destruct (String.eqb_spec (Values_Get (r_Form r) stateParam) expectedState)
      as [Hm|Hm]; cbn [negb].
    + destruct (Client_Exchange _ _ _ _) as [[tk|e] c']; cbn;
        (split; [split; [auto|discriminate]|discriminate]).
    + split; [split|reflexivity]; [intros H; contradiction H; reflexivity|].
      intros (_ & _ & H & _). contradiction.
  - split; [split|reflexivity]; [intros H; contradiction H; reflexivity|].
    intros (_ & Hs & _ & He & Hc).
    rewrite (valid_parse r Hs He Hc) in P. discriminate P.
Qed.

(** X21: a callback whose form parsed but has no [state] gets the
    session error, whatever its other parameters and whatever state is
    expected, the empty one included. *)
Theorem callbackHandler_missing_state (c : Client) (w : ResponseWriter)
    (r : Request) :
  r_ParseForm r = None ->
  Values_Get (r_Form r) stateParam = "" ->
  rejected c (handler c w r)
    (errors_New "User session error. No state parameter.").
Proof.
  intros Hp Hs. unfold callbackHandler.
  rewrite Hp, (CallbackSpec.parseCallbackRequest_no_state _ Hs).
  split; reflexivity.
Qed.

(** X22: a callback whose form parsed, with a [state], no [error] and
    no [code], gets the missing-code error, also when its [state] is not
    the expected one: the missing code is reported before the state is
    compared. *)
Theorem callbackHandler_missing_code (c : Client) (w : ResponseWriter)
    (r : Request) :
  r_ParseForm r = None ->
  Values_Get (r_Form r) stateParam <> "" ->
  Values_Get (r_Form r) errParam = "" ->
  Values_Get (r_Form r) codeParam = "" ->
  rejected c (handler c w r) (errors_New "Missing code token.").
Proof.
  intros Hp Hs He Hc. unfold callbackHandler, parseCallbackRequest.
  apply String.eqb_neq in Hs. rewrite Hp, Hs, He, Hc.
  split; reflexivity.
Qed.

End OneAttempt.

End Handler.

(** ** The state value *)

Lemma base64_digit_alphabet (v : N) :
  In (base64_digit v) (list_ascii_of_string encodeURL).
Proof.
  unfold base64_digit.
  destruct (Nat.lt_ge_cases (N.to_nat v)
              (List.length (list_ascii_of_string encodeURL))) as [H|H].
  - apply nth_In. exact H.
  - rewrite nth_overflow by exact H. left. reflexivity.
Qed.

Lemma inCutset_digit (v : N) : inCutset (base64_digit v) "=" = false.
Proof.
  assert (H : forallb (fun ch => negb (inCutset ch "="))
                (list_ascii_of_string encodeURL) = true)
    by (vm_compute; reflexivity).
  rewrite forallb_forall in H.
  apply negb_true_iff, H, base64_digit_alphabet.
Qed.

Lemma strings_TrimRight_cons (a : ascii) (s cutset : string) :
  inCutset a cutset = false ->
  strings_TrimRight (String a s) cutset =
  String a (strings_TrimRight s cutset).
Proof.
  intros H. cbn [strings_TrimRight].
  destruct (strings_TrimRight s cutset); [rewrite H|]; reflexivity.
Qed.

Lemma base64_digit_inj (i j : N) :
  (i < 64)%N -> (j < 64)%N -> base64_digit i = base64_digit j -> i = j.
Proof.
  intros Hi Hj H. unfold base64_digit in H.
  assert (ND : List.NoDup (list_ascii_of_string encodeURL)).
  { apply NoDup_ListNoDup.
    apply (bool_decide_unpack (NoDup (list_ascii_of_string encodeURL))).
    vm_compute. exact I. }
  apply N2Nat.inj. revert H.
  apply (proj1 (List.NoDup_nth _ "A"%char) ND).
  - change (List.length (list_ascii_of_string encodeURL)) with 64%nat. lia.
  - change (List.length (list_ascii_of_string encodeURL)) with 64%nat. lia.
Qed.

Lemma land_shiftl_low (a b n : N) :
  (b < 2 ^ n)%N -> N.land (N.shiftl a n) b = 0%N.
Proof.
  intros H. apply N.bits_inj. intros m.
  rewrite N.land_spec, N.bits_0.
  destruct (N.le_gt_cases n m) as [Hm|Hm].
  - rewrite <- (N.mod_small b (2 ^ n)) by exact H.
    rewrite N.mod_pow2_bits_high by exact Hm. apply andb_false_r.
  - rewrite N.shiftl_spec_low by exact Hm. reflexivity.
Qed.

Lemma lor_shiftl_add (a b n : N) :
  (b < 2 ^ n)%N -> N.lor (N.shiftl a n) b = (a * 2 ^ n + b)%N.
Proof.
  intros H. rewrite <- N.lxor_lor, <- N.add_nocarry_lxor
    by (apply land_shiftl_low; exact H).
  rewrite N.shiftl_mul_pow2. reflexivity.
Qed.

(** The 24-bit value of a group of three bytes. *)
Lemma group_value (a b c : Byte.byte) :
  N.lor (N.lor (N.shiftl (Byte.to_N a) 16) (N.shiftl (Byte.to_N b) 8))
    (Byte.to_N c)
  = (65536 * Byte.to_N a + 256 * Byte.to_N b + Byte.to_N c)%N.
Proof.
  pose proof (Byte.to_N_bounded a). pose proof (Byte.to_N_bounded b).
  pose proof (Byte.to_N_bounded c).
  assert (E : N.lor (N.shiftl (Byte.to_N a) 16) (N.shiftl (Byte.to_N b) 8)
              = N.shiftl (256 * Byte.to_N a + Byte.to_N b) 8).
  { rewrite lor_shiftl_add.
    - rewrite !N.shiftl_mul_pow2.
      change (2 ^ 16)%N with 65536%N. change (2 ^ 8)%N with 256%N. lia.
    - rewrite N.shiftl_mul_pow2.
      change (2 ^ 16)%N with 65536%N. change (2 ^ 8)%N with 256%N. lia. }
  rewrite E, lor_shiftl_add by (change (2 ^ 8)%N with 256%N; lia).
  change (2 ^ 8)%N with 256%N. lia.
Qed.

Lemma digit_of (v k : N) :
  N.land (N.shiftr v k) 63 = ((v / 2 ^ k) mod 64)%N.
Proof.
  change 63%N with (N.ones 6). rewrite N.land_ones, N.shiftr_div_pow2.
  reflexivity.
Qed.

Lemma digit_lt (v : N) : (N.land v 63 < 64)%N.
Proof.
  change 63%N with (N.ones 6). rewrite N.land_ones.
  apply N.mod_lt. discriminate.
Qed.

Local Abbreviation val3 a b c :=
  (N.lor (N.lor (N.shiftl (Byte.to_N a) 16) (N.shiftl (Byte.to_N b) 8))
     (Byte.to_N c)).

Lemma to_N_inj (a b : Byte.byte) : Byte.to_N a = Byte.to_N b -> a = b.
Proof.
  intros H. pose proof (Byte.of_to_N a) as Ha. rewrite H, Byte.of_to_N in Ha.
  congruence.
Qed.

Ltac euclid := zify; Z.to_euclidean_division_equations; lia.

(** The four 6-bit digits of a 24-bit group, in terms of its bytes. *)
Lemma sextets (a b c : N) :
  (a <= 255 -> b <= 255 -> c <= 255 ->
   ((65536 * a + 256 * b + c) / 262144) mod 64 = a / 4 /\
   ((65536 * a + 256 * b + c) / 4096) mod 64 = (a mod 4) * 16 + b / 16 /\
   ((65536 * a + 256 * b + c) / 64) mod 64 = (b mod 16) * 4 + c / 64 /\
   ((65536 * a + 256 * b + c) / 1) mod 64 = c mod 64)%N.
Proof. intros Ha Hb Hc. repeat split; euclid. Qed.

Lemma last_sextets (a : N) :
  (a <= 255 ->
   ((a * 65536) / 262144) mod 64 = a / 4 /\
   ((a * 65536) / 4096) mod 64 = (a mod 4) * 16)%N.
Proof. intros Ha. split; euclid. Qed.

Lemma quot_rem_eq (k a a' : N) :
  (k <> 0 -> a / k = a' / k -> a mod k = a' mod k -> a = a')%N.
Proof.
  intros Hk Hq Hr. rewrite (N.div_mod a k Hk), (N.div_mod a' k Hk), Hq, Hr.
  reflexivity.
Qed.

Lemma split_digits (k x y x' y' : N) :
  (y < k -> y' < k -> x * k + y = x' * k + y' -> x = x' /\ y = y')%N.
Proof.
  intros Hy Hy' H. rewrite !(N.mul_comm _ k) in H.
  split.
  - rewrite (N.div_unique (k * x + y) k x y Hy eq_refl).
    rewrite (N.div_unique (k * x' + y') k x' y' Hy' eq_refl).
    rewrite H. reflexivity.
  - rewrite (N.mod_unique (k * x + y) k x y Hy eq_refl).
    rewrite (N.mod_unique (k * x' + y') k x' y' Hy' eq_refl).
    rewrite H. reflexivity.
Qed.

Lemma bytes_of_sextets (a b c a' b' c' : N) :
  (a <= 255 -> b <= 255 -> c <= 255 -> a' <= 255 -> b' <= 255 -> c' <= 255 ->
   a / 4 = a' / 4 ->
   (a mod 4) * 16 + b / 16 = (a' mod 4) * 16 + b' / 16 ->
   (b mod 16) * 4 + c / 64 = (b' mod 16) * 4 + c' / 64 ->
   c mod 64 = c' mod 64 ->
   a = a' /\ b = b' /\ c = c')%N.
Proof.
  intros Ha Hb Hc Ha' Hb' Hc' H18 H12 H6 H0.
  assert (Hb16 : (b / 16 < 16)%N) by (clear - Hb; euclid).
  assert (Hb16' : (b' / 16 < 16)%N) by (clear - Hb'; euclid).
  assert (Hc64 : (c / 64 < 4)%N) by (clear - Hc; euclid).
  assert (Hc64' : (c' / 64 < 4)%N) by (clear - Hc'; euclid).
  destruct (split_digits 16 _ _ _ _ Hb16 Hb16' H12) as [E1 E1'].
  destruct (split_digits 4 _ _ _ _ Hc64 Hc64' H6) as [E2 E2'].
  repeat split.
  - apply (quot_rem_eq 4); [discriminate|assumption|assumption].
  - apply (quot_rem_eq 16); [discriminate|assumption|assumption].
  - apply (quot_rem_eq 64); [discriminate|assumption|assumption].
Qed.

(** The four digits of a group determine its three bytes. *)
Lemma group3_inj (a b c a' b' c' : Byte.byte) :
  base64_digit (N.land (N.shiftr (val3 a b c) 18) 63) =
  base64_digit (N.land (N.shiftr (val3 a' b' c') 18) 63) ->
  base64_digit (N.land (N.shiftr (val3 a b c) 12) 63) =
  base64_digit (N.land (N.shiftr (val3 a' b' c') 12) 63) ->
  base64_digit (N.land (N.shiftr (val3 a b c) 6) 63) =
  base64_digit (N.land (N.shiftr (val3 a' b' c') 6) 63) ->
  base64_digit (N.land (val3 a b c) 63) =
  base64_digit (N.land (val3 a' b' c') 63) ->
  a = a' /\ b = b' /\ c = c'.
Proof.
  intros H18 H12 H6 H0.
  apply base64_digit_inj in H18, H12, H6, H0; try apply digit_lt.
  rewrite <- (N.shiftr_0_r (val3 a b c)), <- (N.shiftr_0_r (val3 a' b' c')) in H0.
  rewrite !digit_of, !group_value in *.
  pose proof (Byte.to_N_bounded a) as Ba. pose proof (Byte.to_N_bounded b) as Bb.
  pose proof (Byte.to_N_bounded c) as Bc. pose proof (Byte.to_N_bounded a') as Ba'.
  pose proof (Byte.to_N_bounded b') as Bb'. pose proof (Byte.to_N_bounded c') as Bc'.
  change (2 ^ 18)%N with 262144%N in *. change (2 ^ 12)%N with 4096%N in *.
  change (2 ^ 6)%N with 64%N in *. change (2 ^ 0)%N with 1%N in *.
  destruct (sextets _ _ _ Ba Bb Bc) as (S18 & S12 & S6 & S0).
  destruct (sextets _ _ _ Ba' Bb' Bc') as (S18' & S12' & S6' & S0').
  rewrite S18, S18' in H18. rewrite S12, S12' in H12.
  rewrite S6, S6' in H6. rewrite S0, S0' in H0.
  destruct (bytes_of_sextets _ _ _ _ _ _ Ba Bb Bc Ba' Bb' Bc' H18 H12 H6 H0)
    as (Ea & Eb & Ec).
  repeat split; apply to_N_inj; assumption.
Qed.

(** The two digits of a last single byte determine it. *)
Lemma group1_inj (a a' : Byte.byte) :
  base64_digit (N.land (N.shiftr (N.shiftl (Byte.to_N a) 16) 18) 63) =
  base64_digit (N.land (N.shiftr (N.shiftl (Byte.to_N a') 16) 18) 63) ->
  base64_digit (N.land (N.shiftr (N.shiftl (Byte.to_N a) 16) 12) 63) =
  base64_digit (N.land (N.shiftr (N.shiftl (Byte.to_N a') 16) 12) 63) ->
  a = a'.
Proof.
  intros H18 H12.
  apply base64_digit_inj in H18, H12; try apply digit_lt.
  rewrite !digit_of, !N.shiftl_mul_pow2 in *.
  pose proof (Byte.to_N_bounded a) as Ba. pose proof (Byte.to_N_bounded a') as Ba'.
  change (2 ^ 18)%N with 262144%N in *. change (2 ^ 12)%N with 4096%N in *.
  change (2 ^ 16)%N with 65536%N in *.
  destruct (last_sextets _ Ba) as (S18 & S12).
  destruct (last_sextets _ Ba') as (S18' & S12').
  rewrite S18, S18' in H18. rewrite S12, S12' in H12.
  apply to_N_inj, (quot_rem_eq 4); [discriminate|assumption|].
  apply N.mul_cancel_r in H12; [assumption|discriminate].
Qed.

Lemma trim_padding :
  strings_TrimRight
    (String base64_StdPadding (String base64_StdPadding EmptyString)) "="
  = EmptyString.
Proof. reflexivity. Qed.

Ltac sixteen buff Hlen :=
  do 16 (destruct buff as [|? buff]; [discriminate Hlen|]);
  destruct buff; [|discriminate Hlen].

Ltac encoded :=
  cbn [base64_URLEncoding_EncodeToString];
  repeat (rewrite !strings_TrimRight_cons by apply inCutset_digit;
          rewrite trim_padding).

Lemma String_inj (a a' : ascii) (s s' : string) :
  String a s = String a' s' -> a = a' /\ s = s'.
Proof. intros H. injection H as -> ->. split; reflexivity. Qed.

Lemma Returned_inj {T : Type} (x y : T) : Returned x = Returned y -> x = y.
Proof. intros H. injection H as ->. reflexivity. Qed.

Ltac digits H :=
  repeat (apply String_inj in H; let D := fresh "D" in destruct H as [D H]).

(** X24: when the random source fills the 16-byte buffer,
    [rand128Bits] returns a state value of 22 characters, all of the
    URL-safe base64 alphabet, so with no padding left. *)
Theorem rand128Bits_url_safe (ReadFull : nat -> result (list Byte.byte))
    (buff : list Byte.byte) :
  ReadFull 16%nat = Ok buff ->
  List.length buff = 16%nat ->
  exists s,
    rand128Bits ReadFull = Returned s /\
    String.length s = 22%nat /\
    List.Forall (fun ch => In ch (list_ascii_of_string encodeURL))
      (list_ascii_of_string s).
Proof.
  intros HR Hlen. unfold rand128Bits. rewrite HR.
  sixteen buff Hlen. encoded.
  eexists. split; [reflexivity|]. split; [reflexivity|].
  cbn [list_ascii_of_string].
  repeat (apply List.Forall_cons; [apply base64_digit_alphabet|]).
  apply List.Forall_nil.
Qed.

(** X25: two reads that fill the buffer with different bytes give
    different state values: the encoding and the trimming lose none of
    the 128 bits. *)
Theorem rand128Bits_distinct (ReadFull1 ReadFull2 : nat -> result (list Byte.byte))
    (buff1 buff2 : list Byte.byte) :
  ReadFull1 16%nat = Ok buff1 -> List.length buff1 = 16%nat ->
  ReadFull2 16%nat = Ok buff2 -> List.length buff2 = 16%nat ->
  buff1 <> buff2 ->
  rand128Bits ReadFull1 <> rand128Bits ReadFull2.
Proof.
  intros HR1 Hlen1 HR2 Hlen2 Hne Heq. apply Hne. clear Hne.
  unfold rand128Bits in Heq. rewrite HR1, HR2 in Heq. clear HR1 HR2.
  sixteen buff1 Hlen1. sixteen buff2 Hlen2.
  revert Heq. encoded. intros Heq.
  apply Returned_inj in Heq. digits Heq.
  destruct (group3_inj _ _ _ _ _ _ D D0 D1 D2) as (-> & -> & ->).
  destruct (group3_inj _ _ _ _ _ _ D3 D4 D5 D6) as (-> & -> & ->).
  destruct (group3_inj _ _ _ _ _ _ D7 D8 D9 D10) as (-> & -> & ->).
  destruct (group3_inj _ _ _ _ _ _ D11 D12 D13 D14) as (-> & -> & ->).
  destruct (group3_inj _ _ _ _ _ _ D15 D16 D17 D18) as (-> & -> & ->).
  rewrite (group1_inj _ _ D19 D20). reflexivity.
Qed.

(** The browser is started with the URL as one argument, the last
    one, never split or rewritten; the command is [cmd /c start] on
    windows, [open] on darwin and [xdg-open] on every other system. *)
Lemma openBrowser_command_url (GOOS url : string) :
  let cmd := fst (openBrowser_command GOOS url) in
  let args := snd (openBrowser_command GOOS url) in
  last args = Some url /\
  (GOOS = "windows" /\ cmd = "cmd" /\ args = ["/c"; "start"; url] \/
   GOOS = "darwin" /\ cmd = "open" /\ args = [url] \/
   GOOS <> "windows" /\ GOOS <> "darwin" /\ cmd = "xdg-open" /\ args = [url]).
Proof.
  unfold openBrowser_command.
  destruct (String.eqb_spec GOOS "windows") as [->|Hw]; [cbn; auto|].
  destruct (String.eqb_spec GOOS "darwin") as [->|Hd]; cbn; auto 10.
Qed.

(** ** The further properties on explicit requests *)

Lemma mergeContexts_other_keys_witness :
  otherCtxKey "trace" <> HTTPClientCtxKey /\
  Context_Value (mergeContexts fixtures.requestCtx fixtures.flowCtx)
    (otherCtxKey "trace")
  = Context_Value fixtures.requestCtx (otherCtxKey "trace").
Proof.
  split; [discriminate|].
  apply (mergeContexts_other_keys fixtures.requestCtx fixtures.flowCtx
           (otherCtxKey "trace")).
  discriminate.
Defined.

Example mergeContexts_flow_client :
  Context_Value (mergeContexts fixtures.requestCtx fixtures.flowCtx)
    HTTPClientCtxKey = Some "flow-client" /\
  Context_Value (mergeContexts fixtures.requestCtx fixtures.flowCtx)
    (otherCtxKey "trace") = Some "t-1".
Proof. split; vm_compute; reflexivity. Qed.

Lemma parseCallbackRequest_reads_four_witness :
  r_Form fixtures.noisyCallback <> r_Form fixtures.validCallback /\
  parseCallbackRequest (r_Form fixtures.noisyCallback) =
  parseCallbackRequest (r_Form fixtures.validCallback).
Proof.
  split.
  - intros H. apply (f_equal (fun m : Values => m !! "utm")) in H.
    vm_compute in H. discriminate H.
  - apply (parseCallbackRequest_reads_four (r_Form fixtures.noisyCallback)
             (r_Form fixtures.validCallback));
      vm_compute; reflexivity.
Defined.

Lemma callbackHandler_valid_callback_witness :
  let r := fixtures.validCallback in
  let ctx := mergeContexts (r_Context r) context_Background in
  r_ParseForm r = None /\
  Values_Get (r_Form r) stateParam = "A" /\
  Values_Get (r_Form r) codeParam = "c0de" /\
  fixtures.attempt [] r =
  match fixtures.provider_Exchange [] ctx fixtures.cfg
          (Values_Get (r_Form r) codeParam) with
  | (Ok oidcToken, c') =>
      mkHandled (OKCallbackResponse newResponseWriter r) c'
        [EvExchange ctx fixtures.cfg (Values_Get (r_Form r) codeParam);
         EvSend {| token := Some oidcToken; err := None |}]
  | (Err e, c') =>
      mkHandled (ErrCallbackResponse newResponseWriter r e) c'
        [EvExchange ctx fixtures.cfg (Values_Get (r_Form r) codeParam);
         EvSend {| token := None; err := Some e |}]
  end.
Proof.
  cbv zeta. split; [reflexivity|]. split; [vm_compute; reflexivity|].
  split; [vm_compute; reflexivity|].
  apply (callbackHandler_valid_callback fixtures.provider_Exchange
           defaultResponders context_Background fixtures.cfg "A" []
           newResponseWriter fixtures.validCallback).
  - reflexivity.
  - vm_compute. discriminate.
  - vm_compute. reflexivity.
  - vm_compute. reflexivity.
  - vm_compute. discriminate.
Defined.

Lemma callbackHandler_missing_state_witness :
  let r := fixtures.noStateCallback in
  r_ParseForm r = None /\
  Values_Get (r_Form r) stateParam = "" /\
  Values_Get (r_Form r) codeParam = "c0de" /\
  rejected [] (fixtures.attempt [] r)
    (errors_New "User session error. No state parameter.").
Proof.
  cbv zeta. split; [reflexivity|]. split; [vm_compute; reflexivity|].
  split; [vm_compute; reflexivity|].
  apply (callbackHandler_missing_state fixtures.provider_Exchange
           defaultResponders context_Background fixtures.cfg "A" []
           newResponseWriter fixtures.noStateCallback).
  - reflexivity.
  - vm_compute. reflexivity.
Defined.

Lemma callbackHandler_missing_code_witness :
  let r := fixtures.noCodeCallback in
  r_ParseForm r = None /\
  Values_Get (r_Form r) stateParam = "B" /\
  rejected [] (fixtures.attempt [] r) (errors_New "Missing code token.").
Proof.
  cbv zeta. split; [reflexivity|]. split; [vm_compute; reflexivity|].
  apply (callbackHandler_missing_code fixtures.provider_Exchange
           defaultResponders context_Background fixtures.cfg "A" []
           newResponseWriter fixtures.noCodeCallback).
  - reflexivity.
  - vm_compute. discriminate.
  - vm_compute. reflexivity.
  - vm_compute. reflexivity.
Defined.

Lemma rand128Bits_url_safe_witness :
  fixtures.zeros_ReadFull 16%nat = Ok (repeat Byte.x00 16) /\
  exists s,
    rand128Bits fixtures.zeros_ReadFull = Returned s /\
    String.length s = 22%nat /\
    List.Forall (fun ch => In ch (list_ascii_of_string encodeURL))
      (list_ascii_of_string s).
Proof.
  split; [reflexivity|].
  apply (rand128Bits_url_safe fixtures.zeros_ReadFull (repeat Byte.x00 16));
    reflexivity.
Defined.

Example rand128Bits_zeros :
  rand128Bits fixtures.zeros_ReadFull = Returned "AAAAAAAAAAAAAAAAAAAAAA" /\
  rand128Bits fixtures.one_ReadFull = Returned "AQAAAAAAAAAAAAAAAAAAAA".
Proof. split; vm_compute; reflexivity. Qed.

Lemma rand128Bits_distinct_witness :
  repeat Byte.x00 16 <> Byte.x01 :: repeat Byte.x00 15 /\
  rand128Bits fixtures.zeros_ReadFull <> rand128Bits fixtures.one_ReadFull.
Proof.
  split; [discriminate|].
  apply (rand128Bits_distinct fixtures.zeros_ReadFull fixtures.one_ReadFull
           (repeat Byte.x00 16) (Byte.x01 :: repeat Byte.x00 15));
    try reflexivity.
  discriminate.
Defined.

End CallbackExtra.
